(** * pylove: the LAN / Game Mode wrapper of [pylove/lan.py]

    A shallow embedding of [GameModeWrapper]: the command builder
    ([_function_clamp_range], [function_request], [stop],
    [_convert_actions_to_letters], [pattern_request_raw], [pattern_request],
    [preset_request], [get_toys], [get_toys_name]) and the request/response
    gateway ([_parse_json], [send_command]).

    Modelling conventions.
    - A Python [str] is a [string]; the texts the wrapper handles are ASCII,
      and a character outside ASCII is carried as its UTF-8 bytes.
    - A Python [int] is a [Z].  Intensities, loop times and intervals are
      taken at [int]; a value the code only stores ([time]) is any [pyval].
    - A Python [dict] is an association list in insertion order with
      pairwise distinct keys; [d[k] = v] is [dict_set].
    - [print] appends a line to an output trace, [self.last_command] is a
      field of the explicit instance state, an exception is an [outcome].
    - [requests.post] is the environment: a function from the request to
      what the call does (raise, or return a response).
    - The interpreter's resource limits (recursion depth, digit count of
      integer conversions) are outside the model. *)

From Stdlib Require Import ZArith List String Ascii Bool Lia DecimalString.
Import ListNotations.
Local Open Scope string_scope.
Local Open Scope Z_scope.

(** ** Python values *)

Unset Elimination Schemes.
Inductive pyval : Type :=
| PNone
| PBool (b : bool)
| PInt (z : Z)
| PFloat (numeral : string)
| PStr (s : string)
| PList (l : list pyval)
| PDict (d : list (string * pyval)).
Set Elimination Schemes.

(** A float is kept as the numeral that denotes it: the wrapper never
    computes with one. *)

Definition dict (V : Type) : Type := list (string * V).

Fixpoint dict_get {V : Type} (d : dict V) (k : string) : option V :=
  match d with
  | [] => None
  | (k', v) :: r => if String.eqb k' k then Some v else dict_get r k
  end.

(** [d[k] = v]: an existing key keeps its place, a new key goes last. *)
Fixpoint dict_set {V : Type} (d : dict V) (k : string) (v : V) : dict V :=
  match d with
  | [] => [(k, v)]
  | (k', v') :: r =>
      if String.eqb k' k then (k', v) :: r else (k', v') :: dict_set r k v
  end.

Definition dict_keys {V : Type} (d : dict V) : list string := map fst d.

(** [dict(pairs)] *)
Definition dict_of_pairs {V : Type} (pairs : list (string * V)) : dict V :=
  fold_left (fun d kv => dict_set d (fst kv) (snd kv)) pairs [].

(** ** Builtins *)

(** [str(n)] for an [int]. *)
Definition str_int (n : Z) : string := NilZero.string_of_int (Z.to_int n).

(** [min(a, b)] and [max(a, b)]: the first argument unless the second is
    strictly smaller (resp. greater). *)
Definition py_min (a b : Z) : Z := if b <? a then b else a.
Definition py_max (a b : Z) : Z := if b >? a then b else a.

(** [sep.join(l)] *)
Definition join (sep : string) (l : list string) : string := String.concat sep l.

(** [c.lower()] on one character. *)
Definition lower (c : ascii) : ascii :=
  let n := nat_of_ascii c in
  if ((65 <=? n)%nat && (n <=? 90)%nat)%bool then ascii_of_nat (n + 32) else c.

Definition char_str (c : ascii) : string := String c EmptyString.

(** ** The string enumerations *)

Inductive Actions : Type :=
| VIBRATE | VIBRATE1 | VIBRATE2 | VIBRATE3 | ROTATE | PUMP
| THRUSTING | FINGERING | SUCTION | DEPTH | ALL.

Definition Actions_value (a : Actions) : string :=
  match a with
  | VIBRATE => "Vibrate"
  | VIBRATE1 => "Vibrate1"
  | VIBRATE2 => "Vibrate2"
  | VIBRATE3 => "Vibrate3"
  | ROTATE => "Rotate"
  | PUMP => "Pump"
  | THRUSTING => "Thrusting"
  | FINGERING => "Fingering"
  | SUCTION => "Suction"
  | DEPTH => "Depth"
  | ALL => "All"
  end.

Inductive Presets : Type := PULSE | WAVE | FIREWORKS | EARTHQUAKE.

Definition Presets_value (p : Presets) : string :=
  match p with
  | PULSE => "pulse"
  | WAVE => "wave"
  | FIREWORKS => "fireworks"
  | EARTHQUAKE => "earthquake"
  end.

(** ** The tables set up by [__init__] *)

Definition error_codes : list (Z * string) :=
  [ (200, "OK");
    (400, "Invalid Command");
    (401, "Toy Not Found");
    (402, "Toy Not Connected");
    (403, "Toy Doesn't Support This Command");
    (404, "Invalid Parameter");
    (500, "HTTP server not started or disabled");
    (506, "Server Error. Restart Lovense Connect.") ].

(** [self.error_codes.get(code, default)] *)
Fixpoint error_codes_get (table : list (Z * string)) (code : Z)
  (default : string) : string :=
  match table with
  | [] => default
  | (c, msg) :: r => if c =? code then msg else error_codes_get r code default
  end.

Record range : Type := { min : Z; max : Z }.

Definition _function_range : list (Actions * range) :=
  [ (VIBRATE, {| min := 0; max := 20 |});
    (VIBRATE1, {| min := 0; max := 20 |});
    (VIBRATE2, {| min := 0; max := 20 |});
    (VIBRATE3, {| min := 0; max := 20 |});
    (ROTATE, {| min := 0; max := 20 |});
    (PUMP, {| min := 0; max := 3 |});
    (THRUSTING, {| min := 0; max := 20 |});
    (FINGERING, {| min := 0; max := 20 |});
    (SUCTION, {| min := 0; max := 20 |});
    (DEPTH, {| min := 0; max := 3 |});
    (ALL, {| min := 0; max := 20 |}) ].

(** [self._function_range[action]] guarded by [action in
    self._function_range]: a member of the enumeration is a [str] equal to
    its value, so the key is found by string equality. *)
Fixpoint range_lookup (table : list (Actions * range)) (action : string)
  : option range :=
  match table with
  | [] => None
  | (a, r) :: rest =>
      if String.eqb (Actions_value a) action then Some r
      else range_lookup rest action
  end.

(** ** Command builder *)

Definition _function_clamp_range (actions : dict Z) : dict Z :=
  fold_left
    (fun clamped_actions item =>
       let action := fst item in
       let value := snd item in
       match range_lookup _function_range action with
       | Some r =>
           let min_val := min r in
           let max_val := max r in
           let clamped_value := py_max (py_min value max_val) min_val in
           dict_set clamped_actions action clamped_value
       | None => dict_set clamped_actions action value
       end)
    actions [].

(** The payload [function_request] hands to [send_command]. *)
Definition function_payload (actions : dict Z) (time : pyval)
  (loop_on_time loop_off_time : option Z) (toy_id : option string)
  (stop_last : option bool) : dict pyval :=
  let actions := _function_clamp_range actions in
  let action :=
    join "," (map (fun kv => fst kv ++ ":" ++ str_int (snd kv)) actions) in
  let payload :=
    [ ("command", PStr "Function");
      ("action", PStr action);
      ("timeSec", time);
      ("apiVer", PInt 1) ] in
  let payload :=
    match loop_on_time with
    | Some t => dict_set payload "loopRunningSec" (PInt (py_max t 1))
    | None => payload
    end in
  let payload :=
    match loop_off_time with
    | Some t => dict_set payload "loopPauseSec" (PInt (py_max t 1))
    | None => payload
    end in
  let payload :=
    match toy_id with
    | Some t => dict_set payload "toy" (PStr t)
    | None => payload
    end in
  match stop_last with
  | Some b => dict_set payload "stopPrevious" (PInt (if b then 1 else 0))
  | None => payload
  end.

Definition stop_payload (toy_id : option string) : dict pyval :=
  let payload :=
    [ ("command", PStr "Function");
      ("action", PStr "Stop");
      ("timeSec", PInt 0);
      ("apiVer", PInt 1) ] in
  match toy_id with
  | Some t => dict_set payload "toy" (PStr t)
  | None => payload
  end.

(** An entry of the list given to [_convert_actions_to_letters]: a plain
    [str], a member of [Actions], or a value of another type. *)
Inductive action_entry : Type :=
| Plain (s : string)
| Member (a : Actions)
| NotStr (v : pyval).

(** [isinstance(action, str)]: a [StrEnum] member is a [str]. *)
Definition isinstance_str (e : action_entry) : bool :=
  match e with Plain _ | Member _ => true | NotStr _ => false end.

Definition isinstance_Actions (e : action_entry) : bool :=
  match e with Member _ => true | _ => false end.

(** The characters of an entry that is a [str]. *)
Definition entry_text (e : action_entry) : string :=
  match e with
  | Plain s => s
  | Member a => Actions_value a
  | NotStr _ => ""
  end.

Definition valid_letters : list string := ["v"; "r"; "p"; "t"; "f"; "s"; "d"].

Definition str_in (x : string) (l : list string) : bool :=
  existsb (String.eqb x) l.

(** [action[0].lower()] *)
Definition first_letter (s : string) : string :=
  match s with
  | String c _ => char_str (lower c)
  | EmptyString => ""
  end.

(** The [for] loop of [_convert_actions_to_letters], [letter_codes] being
    the accumulator; the early [return ""] leaves the loop with [None]. *)
Fixpoint letters_loop (actions : list action_entry) (letter_codes : list string)
  : option (list string) :=
  match actions with
  | [] => Some letter_codes
  | action :: rest =>
      if (isinstance_str action && (0 <? String.length (entry_text action))%nat)%bool
      then
        let letter := first_letter (entry_text action) in
        if negb (str_in letter valid_letters) then letters_loop rest letter_codes
        else letters_loop rest (letter_codes ++ [letter])
      else if isinstance_Actions action then
        letters_loop rest (letter_codes ++ [first_letter (entry_text action)])
      else None
  end.

Definition _convert_actions_to_letters (actions : list action_entry) : string :=
  match letters_loop actions [] with
  | None => ""
  | Some letter_codes =>
      match letter_codes with
      | [] => ""
      | _ => join "," letter_codes
      end
  end.

Definition pattern_raw_payload (strength rule : string) (time : pyval)
  (toy_id : option string) : dict pyval :=
  let payload :=
    [ ("command", PStr "Pattern");
      ("rule", PStr rule);
      ("strength", PStr strength);
      ("timeSec", time);
      ("apiVer", PInt 2) ] in
  match toy_id with
  | Some t => dict_set payload "toy" (PStr t)
  | None => payload
  end.

(** [Actions.ALL in actions]: equality with the member, which a plain
    ["All"] satisfies as well. *)
Definition entry_eq_ALL (e : action_entry) : bool :=
  match e with
  | Plain s => String.eqb s (Actions_value ALL)
  | Member ALL => true
  | Member _ => false
  | NotStr _ => false
  end.

Definition ALL_in (actions : list action_entry) : bool :=
  existsb entry_eq_ALL actions.

(** The [strength] and [rule] strings [pattern_request] computes before it
    delegates to [pattern_request_raw]. *)
Definition pattern_strength (pattern : list Z) : string :=
  let pattern := firstn 50 pattern in
  let pattern := map (fun num => py_min (py_max 0 num) 20) pattern in
  join ";" (map str_int pattern).

Definition pattern_rule (actions : option (list action_entry)) (interval : Z)
  : string :=
  let actions := match actions with None => [Member ALL] | Some l => l end in
  let interval := py_min (py_max interval 100) 1000 in
  let acts := _convert_actions_to_letters actions in
  let rule := "V:1;F:" ++ acts ++ ";S:" ++ str_int interval ++ "#" in
  if ALL_in actions then "V:1;F:;S:" ++ str_int interval ++ "#" else rule.

Definition pattern_payload (pattern : list Z)
  (actions : option (list action_entry)) (interval : Z) (time : pyval)
  (toy_id : option string) : dict pyval :=
  pattern_raw_payload (pattern_strength pattern) (pattern_rule actions interval)
    time toy_id.

Definition preset_payload (name : string) (time : pyval)
  (toy_id : option string) : dict pyval :=
  let payload :=
    [ ("command", PStr "Preset");
      ("name", PStr name);
      ("timeSec", time);
      ("apiVer", PInt 1) ] in
  match toy_id with
  | Some t => dict_set payload "toy" (PStr t)
  | None => payload
  end.

Definition get_toys_payload : dict pyval := [("command", PStr "GetToys")].
Definition get_toys_name_payload : dict pyval := [("command", PStr "GetToyName")].

(** ** [json.loads]

    The decoder of the standard library, as the wrapper calls it (default
    options): leading and trailing white space, the literals [null], [true],
    [false], [NaN], [Infinity] and [-Infinity], numbers, strings in strict
    mode (no raw control character) with their escapes, arrays and objects.
    [None] stands for the [ValueError] the decoder raises. *)

Module Json.

Local Open Scope char_scope.
Local Open Scope list_scope.

Definition dquote : ascii := "034".
Definition backslash : ascii := "092".

Definition is_ws (c : ascii) : bool :=
  (c =? " ") || (c =? "009") || (c =? "010") || (c =? "013").

Fixpoint skip_ws (s : list ascii) : list ascii :=
  match s with
  | c :: r => if is_ws c then skip_ws r else s
  | [] => []
  end.

Definition is_digit (c : ascii) : bool :=
  let n := nat_of_ascii c in ((48 <=? n) && (n <=? 57))%nat.

Definition digit_val (c : ascii) : Z := (Z.of_nat (nat_of_ascii c) - 48)%Z.

Definition hex_val (c : ascii) : option Z :=
  let n := nat_of_ascii c in
  if ((48 <=? n) && (n <=? 57))%nat then Some (Z.of_nat n - 48)%Z
  else if ((97 <=? n) && (n <=? 102))%nat then Some (Z.of_nat n - 87)%Z
  else if ((65 <=? n) && (n <=? 70))%nat then Some (Z.of_nat n - 55)%Z
  else None.

Definition hex4 (a b c d : ascii) : option Z :=
  match hex_val a, hex_val b, hex_val c, hex_val d with
  | Some x, Some y, Some z, Some w =>
      Some (((x * 16 + y) * 16 + z) * 16 + w)%Z
  | _, _, _, _ => None
  end.

Definition byte (n : Z) : ascii := ascii_of_N (Z.to_N n).

(** [chr(uni)], as UTF-8 bytes. *)
Definition chr (uni : Z) : list ascii :=
  (if uni <? 128 then [byte uni]
   else if uni <? 2048 then
     [byte (192 + uni / 64); byte (128 + uni mod 64)]
   else if uni <? 65536 then
     [byte (224 + uni / 4096); byte (128 + (uni / 64) mod 64);
      byte (128 + uni mod 64)]
   else
     [byte (240 + uni / 262144); byte (128 + (uni / 4096) mod 64);
      byte (128 + (uni / 64) mod 64); byte (128 + uni mod 64)])%Z.

(** The one-character escapes. *)
Definition BACKSLASH (esc : ascii) : option ascii :=
  if esc =? dquote then Some dquote
  else if esc =? backslash then Some backslash
  else if esc =? "/" then Some "/"
  else if esc =? "b" then Some "008"
  else if esc =? "f" then Some "012"
  else if esc =? "n" then Some "010"
  else if esc =? "r" then Some "013"
  else if esc =? "t" then Some "009"
  else None.

(** [scanstring], entered after the opening quote; [acc] holds the decoded
    characters in reverse. *)
Fixpoint scanstring (s : list ascii) (acc : list ascii)
  : option (string * list ascii) :=
  match s with
  | [] => None
  | c :: r =>
      if c =? dquote then Some (string_of_list_ascii (rev acc), r)
      else if c =? backslash then
        match r with
        | [] => None
        | esc :: r1 =>
            if esc =? "u" then
              match r1 with
              | h1 :: h2 :: h3 :: h4 :: r2 =>
                  match hex4 h1 h2 h3 h4 with
                  | None => None
                  | Some uni =>
                      if ((55296 <=? uni) && (uni <=? 56319))%Z then
                        match r2 with
                        | b :: u :: r3 =>
                            if (b =? backslash) && (u =? "u") then
                              match r3 with
                              | k1 :: k2 :: k3 :: k4 :: r4 =>
                                  match hex4 k1 k2 k3 k4 with
                                  | None => None
                                  | Some uni2 =>
                                      if ((56320 <=? uni2) && (uni2 <=? 57343))%Z
                                      then
                                        let joined :=
                                          (65536 + ((uni - 55296) * 1024
                                                    + (uni2 - 56320)))%Z in
                                        scanstring r4 (rev (chr joined) ++ acc)
                                      else scanstring r2 (rev (chr uni) ++ acc)
                                  end
                              | _ => None
                              end
                            else scanstring r2 (rev (chr uni) ++ acc)
                        | _ => scanstring r2 (rev (chr uni) ++ acc)
                        end
                      else scanstring r2 (rev (chr uni) ++ acc)
                  end
              | _ => None
              end
            else
              match BACKSLASH esc with
              | Some ch => scanstring r1 (ch :: acc)
              | None => None
              end
        end
      else if (nat_of_ascii c <? 32)%nat then None
      else scanstring r (c :: acc)
  end.

(** The number pattern: an optional minus sign, then either a single zero
    or a non-zero digit followed by digits; an optional fraction (a dot and
    at least one digit); an optional exponent (e or E, an optional sign and
    at least one digit). *)
Fixpoint span_digits (s : list ascii) : list ascii * list ascii :=
  match s with
  | c :: r =>
      if is_digit c then let (ds, r') := span_digits r in (c :: ds, r')
      else ([], s)
  | [] => ([], [])
  end.

Definition scan_integer (s : list ascii) : option (list ascii * list ascii) :=
  let (sign, s1) :=
    match s with
    | c :: r => if c =? "-" then ([c], r) else ([], s)
    | [] => ([], s)
    end in
  match s1 with
  | c :: r =>
      if c =? "0" then Some (sign ++ [c], r)
      else if is_digit c then
        let (ds, r') := span_digits s1 in Some (sign ++ ds, r')
      else None
  | [] => None
  end.

Definition scan_frac (s : list ascii) : list ascii * list ascii :=
  match s with
  | c :: r =>
      if c =? "." then
        match span_digits r with
        | ([], _) => ([], s)
        | (ds, r') => (c :: ds, r')
        end
      else ([], s)
  | [] => ([], s)
  end.

Definition scan_exp (s : list ascii) : list ascii * list ascii :=
  match s with
  | e :: r =>
      if (e =? "e") || (e =? "E") then
        let (sign, r1) :=
          match r with
          | c :: r' => if (c =? "-") || (c =? "+") then ([c], r') else ([], r)
          | [] => ([], r)
          end in
        match span_digits r1 with
        | ([], _) => ([], s)
        | (ds, r2) => (e :: sign ++ ds, r2)
        end
      else ([], s)
  | [] => ([], s)
  end.

(** [int(integer)] on the text the pattern matched. *)
Definition parse_int (integer : list ascii) : Z :=
  match integer with
  | c :: ds =>
      if c =? "-" then
        (- fold_left (fun n d => n * 10 + digit_val d) ds 0)%Z
      else fold_left (fun n d => (n * 10 + digit_val d)%Z) integer 0%Z
  | [] => 0%Z
  end.

Definition match_number (s : list ascii) : option (pyval * list ascii) :=
  match scan_integer s with
  | None => None
  | Some (integer, r) =>
      let (frac, r1) := scan_frac r in
      let (exp, r2) := scan_exp r1 in
      match frac, exp with
      | [], [] => Some (PInt (parse_int integer), r2)
      | _, _ =>
          Some (PFloat (string_of_list_ascii (integer ++ frac ++ exp)), r2)
      end
  end.

(** [string[idx:idx + len(lit)] == lit] *)
Fixpoint starts_with (lit s : list ascii) : option (list ascii) :=
  match lit, s with
  | [], _ => Some s
  | a :: lit', b :: s' => if a =? b then starts_with lit' s' else None
  | _ :: _, [] => None
  end.

Definition chars (s : string) : list ascii := list_ascii_of_string s.

Inductive scan (A : Type) : Type :=
| Ok (a : A)
| Fail
| NoFuel.
Arguments Ok {A} a.
Arguments Fail {A}.
Arguments NoFuel {A}.

(** [scan_once], [JSONArray] and [JSONObject].  The two loops are entered
    at the first value (resp. key) of a non-empty container. *)
Fixpoint scan_once (fuel : nat) (s : list ascii) {struct fuel}
  : scan (pyval * list ascii) :=
  match fuel with
  | O => NoFuel
  | S fuel' =>
      match s with
      | [] => Fail
      | nextchar :: r =>
          if nextchar =? dquote then
            match scanstring r [] with
            | Some (str, r') => Ok (PStr str, r')
            | None => Fail
            end
          else if nextchar =? "{" then
            match skip_ws r with
            | c :: r' =>
                if c =? "}" then Ok (PDict [], r')
                else if c =? dquote then parse_members fuel' r' []
                else Fail
            | [] => Fail
            end
          else if nextchar =? "[" then
            match skip_ws r with
            | c :: r' =>
                if c =? "]" then Ok (PList [], r')
                else parse_values fuel' (c :: r') []
            | [] => Fail
            end
          else
            match starts_with (chars "null") s with
            | Some r' => Ok (PNone, r')
            | None =>
            match starts_with (chars "true") s with
            | Some r' => Ok (PBool true, r')
            | None =>
            match starts_with (chars "false") s with
            | Some r' => Ok (PBool false, r')
            | None =>
            match match_number s with
            | Some res => Ok res
            | None =>
            match starts_with (chars "NaN") s with
            | Some r' => Ok (PFloat "NaN", r')
            | None =>
            match starts_with (chars "Infinity") s with
            | Some r' => Ok (PFloat "Infinity", r')
            | None =>
            match starts_with (chars "-Infinity") s with
            | Some r' => Ok (PFloat "-Infinity", r')
            | None => Fail
            end end end end end end end
      end
  end

with parse_values (fuel : nat) (s : list ascii) (values : list pyval)
  {struct fuel} : scan (pyval * list ascii) :=
  match fuel with
  | O => NoFuel
  | S fuel' =>
      match scan_once fuel' s with
      | Ok (value, r) =>
          match skip_ws r with
          | c :: r' =>
              if c =? "]" then Ok (PList (rev (value :: values)), r')
              else if c =? "," then
                parse_values fuel' (skip_ws r') (value :: values)
              else Fail
          | [] => Fail
          end
      | Fail => Fail
      | NoFuel => NoFuel
      end
  end

with parse_members (fuel : nat) (s : list ascii)
  (pairs : list (string * pyval)) {struct fuel} : scan (pyval * list ascii) :=
  match fuel with
  | O => NoFuel
  | S fuel' =>
      match scanstring s [] with
      | None => Fail
      | Some (key, r) =>
          match skip_ws r with
          | colon :: r1 =>
              if colon =? ":" then
                match scan_once fuel' (skip_ws r1) with
                | Ok (value, r2) =>
                    match skip_ws r2 with
                    | c :: r3 =>
                        if c =? "}" then
                          Ok (PDict (dict_of_pairs (rev ((key, value) :: pairs))), r3)
                        else if c =? "," then
                          match skip_ws r3 with
                          | q :: r4 =>
                              if q =? dquote then
                                parse_members fuel' r4 ((key, value) :: pairs)
                              else Fail
                          | [] => Fail
                          end
                        else Fail
                    | [] => Fail
                    end
                | Fail => Fail
                | NoFuel => NoFuel
                end
              else Fail
          | [] => Fail
          end
      end
  end.

(** Two units of fuel per character are enough (see [scan_once_fuel]). *)
Definition fuel_for (s : list ascii) : nat := (2 * List.length s + 2)%nat.

Definition loads (s : string) : option pyval :=
  let doc := skip_ws (chars s) in
  match scan_once (fuel_for doc) doc with
  | Ok (obj, r) =>
      match skip_ws r with
      | [] => Some obj
      | _ :: _ => None
      end
  | Fail => None
  | NoFuel => None
  end.

(** Writes a JSON text with ['] for the double quote. *)
Definition jq (s : string) : string :=
  string_of_list_ascii
    (map (fun c => if c =? "'" then dquote else c) (chars s)).

End Json.

(** ** Request/response gateway *)

(** [_parse_json]: a string is replaced by what [json.loads] makes of it
    (the result is returned as it is), a [dict] and a [list] are rebuilt
    from the recursive calls on their values, anything else is returned. *)
Fixpoint _parse_json (data : pyval) : pyval :=
  match data with
  | PStr s =>
      match Json.loads s with
      | Some parsed => parsed
      | None => data
      end
  | PDict d =>
      PDict
        ((fix items (l : list (string * pyval)) : list (string * pyval) :=
            match l with
            | [] => []
            | (k, v) :: r => (k, _parse_json v) :: items r
            end) d)
  | PList l => PList (map _parse_json l)
  | _ => data
  end.

(** The exceptions the gateway meets.  [ConnectTimeout] derives from both
    [ConnectionError] and [Timeout]; [RequestException] stands for the other
    exceptions of [requests]; [JSONDecodeError] is the one [Response.json]
    raises; [OtherException] is any exception outside that hierarchy. *)
Inductive exn : Type :=
| ConnectionError (msg : string)
| Timeout (msg : string)
| ConnectTimeout (msg : string)
| RequestException (msg : string)
| JSONDecodeError (msg : string)
| AttributeError (msg : string)
| OtherException (msg : string).

Definition is_ConnectionError (e : exn) : bool :=
  match e with ConnectionError _ | ConnectTimeout _ => true | _ => false end.

Definition is_Timeout (e : exn) : bool :=
  match e with Timeout _ | ConnectTimeout _ => true | _ => false end.

Definition is_RequestException (e : exn) : bool :=
  match e with
  | ConnectionError _ | Timeout _ | ConnectTimeout _ | RequestException _
  | JSONDecodeError _ => true
  | AttributeError _ | OtherException _ => false
  end.

(** [str(e)] *)
Definition exn_str (e : exn) : string :=
  match e with
  | ConnectionError m | Timeout m | ConnectTimeout m | RequestException m
  | JSONDecodeError m | AttributeError m | OtherException m => m
  end.

Inductive outcome (A : Type) : Type :=
| Return (a : A)
| Raise (e : exn).
Arguments Return {A} a.
Arguments Raise {A} e.

(** What [print] writes: a line is a sequence of pieces, a value being
    kept as the value whose [str] (or [json.dumps]) is written. *)
Inductive piece : Type :=
| Lit (s : string)
| Str (v : pyval)
| Dumps (v : pyval) (indent : Z).

Definition line : Type := list piece.

Record Response : Type := { status_code : Z; text : string }.

(** [bool(response)] is [response.ok]: no status from 400 to 599. *)
Definition Response_ok (r : Response) : bool :=
  negb ((400 <=? status_code r) && (status_code r <? 600)).

(** [response.json()] *)
Definition Response_json (r : Response) : outcome pyval :=
  match Json.loads (text r) with
  | Some v => Return v
  | None => Raise (JSONDecodeError "Expecting value")
  end.

Record Request : Type :=
  { url : string;
    json : pyval;
    headers : list (string * string);
    timeout : Z }.

(** What [requests.post] does with a request. *)
Inductive post_result : Type :=
| Raises (e : exn)
| Responds (response : option Response).

Definition transport : Type := Request -> post_result.

Record GameModeWrapper : Type :=
  { app_name : string;
    api_endpoint : string;
    _ssl_port : Z;
    log : bool;
    last_command : option pyval }.

(** [__init__]; the port and the flag have defaults 20010, 30010, [False]. *)
Definition init (app_name local_ip : string) (port ssl_port : Z)
  (logging : bool) : GameModeWrapper :=
  {| app_name := app_name;
     api_endpoint := "http://" ++ local_ip ++ ":" ++ str_int port ++ "/command";
     _ssl_port := ssl_port;
     log := logging;
     last_command := None |}.

Definition set_last_command (self : GameModeWrapper) (c : pyval)
  : GameModeWrapper :=
  {| app_name := app_name self;
     api_endpoint := api_endpoint self;
     _ssl_port := _ssl_port self;
     log := log self;
     last_command := Some c |}.

(** The state after a call, what it printed, and how it ended. *)
Record run (A : Type) : Type :=
  { state : GameModeWrapper;
    printed : list line;
    result : outcome A }.
Arguments state {A} r.
Arguments printed {A} r.
Arguments result {A} r.

(** [isinstance(response_code, int)]: a [bool] is an [int]. *)
Definition as_int (v : pyval) : option Z :=
  match v with
  | PInt z => Some z
  | PBool b => Some (if b then 1 else 0)
  | _ => None
  end.

(** The text an integer code is classified as. *)
Definition error_message (response_code : Z) : string :=
  error_codes_get error_codes response_code "Unknown Error".

(** [response_msg], from what [response_json.get("code")] returned. *)
Definition response_msg (response_code : pyval) : line :=
  match as_int response_code with
  | Some code =>
      [Lit "Response: "; Str response_code; Lit ", "; Lit (error_message code)]
  | None => [Lit "Response: Unknown response code "; Str response_code]
  end.

(** [response_json.get("code")]: [get] exists on a [dict] only. *)
Definition get_code (response_json : pyval) : outcome pyval :=
  match response_json with
  | PDict d =>
      match dict_get d "code" with
      | Some v => Return v
      | None => Return PNone
      end
  | _ => Raise (AttributeError "object has no attribute 'get'")
  end.

Definition when (b : bool) (l : list line) : list line := if b then l else [].

Definition send_command (self : GameModeWrapper) (post : transport)
  (command_data : pyval) (timeout : Z) : run (option pyval) :=
  let headers := [("X-platform", app_name self)] in
  let out := when (log self) [[Str command_data]] in
  let self := set_last_command self command_data in
  match post {| url := api_endpoint self; json := command_data;
                headers := headers; timeout := timeout |} with
  | Raises e =>
      if is_ConnectionError e then
        {| state := self;
           printed := out ++ [[Lit "Error: Failed to establish a new connection"]]
                          ++ when (log self) [[Lit (exn_str e)]];
           result := Return None |}
      else if is_Timeout e then
        {| state := self;
           printed := out ++ [[Lit "Error: Request timed out"]]
                          ++ when (log self) [[Lit (exn_str e)]];
           result := Return None |}
      else if is_RequestException e then
        let err_message :=
          if negb (log self)
          then substring 0 50 (exn_str e) ++ "... Enable logging for more info"
          else exn_str e in
        {| state := self;
           printed := out ++ [[Lit "Error: An error occurred in the request: ";
                               Lit err_message]];
           result := Return None |}
      else {| state := self; printed := out; result := Raise e |}
  | Responds response =>
      match response with
      | None =>
          {| state := self;
             printed := out ++ [[Lit "Error: Received no response from server."]];
             result := Return None |}
      | Some response =>
          if negb (Response_ok response) then
            {| state := self;
               printed := out ++ [[Lit "Error: Received no response from server."]];
               result := Return None |}
          else if negb (status_code response =? 200) then
            {| state := self;
               printed := out ++ [[Lit "Error: Received HTTP status code"; Lit " ";
                                   Str (PInt (status_code response)); Lit " ";
                                   Lit "from the server."]];
               result := Return None |}
          else
            match Response_json response with
            | Raise e => {| state := self; printed := out; result := Raise e |}
            | Return response_json =>
                let response_json := _parse_json response_json in
                match get_code response_json with
                | Raise e =>
                    {| state := self; printed := out; result := Raise e |}
                | Return response_code =>
                    {| state := self;
                       printed :=
                         out ++ when (log self)
                                  [response_msg response_code;
                                   [Dumps response_json 4];
                                   []];
                       result := Return (Some response_json) |}
                end
            end
      end
  end.

(** The default [timeout] of [send_command]. *)
Definition default_timeout : Z := 10.

(** ** The public operations: build the payload, hand it to [send_command] *)

Definition function_request (self : GameModeWrapper) (post : transport)
  (actions : dict Z) (time : pyval) (loop_on_time loop_off_time : option Z)
  (toy_id : option string) (stop_last : option bool) : run (option pyval) :=
  send_command self post
    (PDict (function_payload actions time loop_on_time loop_off_time toy_id
              stop_last))
    default_timeout.

Definition stop (self : GameModeWrapper) (post : transport)
  (toy_id : option string) : run (option pyval) :=
  send_command self post (PDict (stop_payload toy_id)) default_timeout.

Definition pattern_request_raw (self : GameModeWrapper) (post : transport)
  (strength rule : string) (time : pyval) (toy_id : option string)
  : run (option pyval) :=
  send_command self post (PDict (pattern_raw_payload strength rule time toy_id))
    default_timeout.

Definition pattern_request (self : GameModeWrapper) (post : transport)
  (pattern : list Z) (actions : option (list action_entry)) (interval : Z)
  (time : pyval) (toy_id : option string) : run (option pyval) :=
  pattern_request_raw self post (pattern_strength pattern)
    (pattern_rule actions interval) time toy_id.

Definition preset_request (self : GameModeWrapper) (post : transport)
  (name : string) (time : pyval) (toy_id : option string)
  : run (option pyval) :=
  send_command self post (PDict (preset_payload name time toy_id))
    default_timeout.

Definition get_toys (self : GameModeWrapper) (post : transport)
  : run (option pyval) :=
  send_command self post (PDict get_toys_payload) default_timeout.

Definition get_toys_name (self : GameModeWrapper) (post : transport)
  : run (option pyval) :=
  send_command self post (PDict get_toys_name_payload) default_timeout.

(** ** Vocabulary of the statements *)

(** The value the range table prescribes for an action. *)
Definition clamped (action : string) (v : Z) : Z :=
  match range_lookup _function_range action with
  | Some r => Z.max (Z.min v (max r)) (min r)
  | None => v
  end.

Definition sample_actions : dict Z :=
  [("Vibrate", 25); ("Pump", -1); ("Custom", 99)].

Definition is_valid_letter (x : string) : bool := str_in x valid_letters.

(** An entry the loop goes past: a non-empty [str]. *)
Definition nonempty_str (e : action_entry) : bool :=
  (isinstance_str e && (0 <? String.length (entry_text e))%nat)%bool.

(** The request [send_command] posts. *)
Definition sent_request (self : GameModeWrapper) (command_data : pyval)
  (timeout : Z) : Request :=
  {| url := api_endpoint self;
     json := command_data;
     headers := [("X-platform", app_name self)];
     timeout := timeout |}.

(** The transport failures: the connection cannot be established, the
    timeout expires, the request fails in another way, no response object
    comes back, or the status is not 200. *)
Inductive transport_failure : post_result -> Prop :=
| connection_failure (e : exn) :
    is_ConnectionError e = true -> transport_failure (Raises e)
| timeout_expiry (e : exn) :
    is_Timeout e = true -> transport_failure (Raises e)
| request_failure (e : exn) :
    is_RequestException e = true -> transport_failure (Raises e)
| missing_response : transport_failure (Responds None)
| bad_status (response : Response) :
    status_code response <> 200 -> transport_failure (Responds (Some response)).

Definition sample_gateway : GameModeWrapper :=
  init "My Cool App" "10.0.0.69" 20010 30010 false.

(** A field that is a JSON text whose own field is again a JSON text:
    the body [{"x": "{\"a\": \"{\\\"b\\\":1}\"}"}] once decoded. *)
Definition doubly_encoded : pyval :=
  PDict [("x", PStr (Json.jq "{'a':'{\'b\':1}'}"))].

Definition optional_key {A : Type} (key : string) (arg : option A)
  : list string :=
  match arg with Some _ => [key] | None => [] end.

Definition answers (status : Z) (body : string) : transport :=
  fun _ => Responds (Some {| status_code := status; text := body |}).

Definition logging_gateway : GameModeWrapper :=
  init "My Cool App" "10.0.0.69" 20010 30010 true.

(** A call of a public operation, with its arguments. *)
Inductive call : Type :=
| SendCommand (command_data : pyval) (timeout : Z)
| FunctionRequest (actions : dict Z) (time : pyval)
    (loop_on_time loop_off_time : option Z) (toy_id : option string)
    (stop_last : option bool)
| Stop (toy_id : option string)
| PatternRequestRaw (strength rule : string) (time : pyval)
    (toy_id : option string)
| PatternRequest (pattern : list Z) (actions : option (list action_entry))
    (interval : Z) (time : pyval) (toy_id : option string)
| PresetRequest (name : string) (time : pyval) (toy_id : option string)
| GetToys
| GetToysName.

Definition perform (self : GameModeWrapper) (post : transport) (c : call)
  : run (option pyval) :=
  match c with
  | SendCommand command_data timeout =>
      send_command self post command_data timeout
  | FunctionRequest actions time loop_on_time loop_off_time toy_id stop_last =>
      function_request self post actions time loop_on_time loop_off_time
        toy_id stop_last
  | Stop toy_id => stop self post toy_id
  | PatternRequestRaw strength rule time toy_id =>
      pattern_request_raw self post strength rule time toy_id
  | PatternRequest pattern actions interval time toy_id =>
      pattern_request self post pattern actions interval time toy_id
  | PresetRequest name time toy_id => preset_request self post name time toy_id
  | GetToys => get_toys self post
  | GetToysName => get_toys_name self post
  end.

(** The payload a call attempts to send. *)
Definition attempted (c : call) : pyval :=
  match c with
  | SendCommand command_data _ => command_data
  | FunctionRequest actions time loop_on_time loop_off_time toy_id stop_last =>
      PDict (function_payload actions time loop_on_time loop_off_time toy_id
               stop_last)
  | Stop toy_id => PDict (stop_payload toy_id)
  | PatternRequestRaw strength rule time toy_id =>
      PDict (pattern_raw_payload strength rule time toy_id)
  | PatternRequest pattern actions interval time toy_id =>
      PDict (pattern_payload pattern actions interval time toy_id)
  | PresetRequest name time toy_id => PDict (preset_payload name time toy_id)
  | GetToys => PDict get_toys_payload
  | GetToysName => PDict get_toys_name_payload
  end.

(** A sequence of calls on one instance, each with the behaviour of the
    transport at that call; a call that raises leaves the instance as it
    is at that point. *)
Fixpoint session (self : GameModeWrapper) (calls : list (call * transport))
  : GameModeWrapper :=
  match calls with
  | [] => self
  | (c, post) :: rest => session (state (perform self post c)) rest
  end.

Definition is_dict (v : pyval) : bool :=
  match v with PDict _ => true | _ => false end.

(** A value with no string in it, at any depth (keys apart). *)
Fixpoint string_free (v : pyval) : bool :=
  match v with
  | PStr _ => false
  | PList l => forallb string_free l
  | PDict d =>
      (fix values (l : list (string * pyval)) : bool :=
         match l with
         | [] => true
         | (_, x) :: r => string_free x && values r
         end) d
  | _ => true
  end.

(** The calls that build their payload themselves. *)
Definition is_builder (c : call) : bool :=
  match c with SendCommand _ _ => false | _ => true end.

(** The device a call is aimed at, when it names one. *)
Definition target (c : call) : option string :=
  match c with
  | SendCommand _ _ => None
  | FunctionRequest _ _ _ _ toy_id _ => toy_id
  | Stop toy_id => toy_id
  | PatternRequestRaw _ _ _ toy_id => toy_id
  | PatternRequest _ _ _ _ toy_id => toy_id
  | PresetRequest _ _ toy_id => toy_id
  | GetToys => None
  | GetToysName => None
  end.

Definition command_kinds : list string :=
  ["Function"; "Pattern"; "Preset"; "GetToys"; "GetToyName"].

Definition is_ALL (a : Actions) : bool :=
  match a with ALL => true | _ => false end.

(** The lines [send_command] prints on a failure. *)
Definition no_response_line : line :=
  [Lit "Error: Received no response from server."].

Definition status_line (status : Z) : line :=
  [Lit "Error: Received HTTP status code"; Lit " "; Str (PInt status); Lit " ";
   Lit "from the server."].

Definition connection_line : line :=
  [Lit "Error: Failed to establish a new connection"].

Definition timeout_line : line := [Lit "Error: Request timed out"].

(** * Properties *)

(** ** The decoder never runs out of fuel *)

Module JsonFacts.
Import Json.
Local Open Scope nat_scope.
Local Open Scope list_scope.

Lemma skip_ws_length (s : list ascii) : List.length (skip_ws s) <= List.length s.
Proof.
  induction s as [|c s IH]; simpl; [lia|].
  destruct (is_ws c); simpl; lia.
Qed.

Lemma skip_ws_cons_length (s r : list ascii) (c : ascii) :
  skip_ws s = c :: r -> List.length r < List.length s.
Proof.
  intros H. pose proof (skip_ws_length s) as Hl. rewrite H in Hl. simpl in Hl. lia.
Qed.

Lemma scanstring_shrinks_upto (n : nat) :
  forall s acc key r,
    List.length s <= n -> scanstring s acc = Some (key, r) ->
    List.length r < List.length s.
Proof.
  induction n as [|n IH]; intros s acc key r Hn H.
  - destruct s; [discriminate|simpl in Hn; lia].
  - destruct s as [|c s]; [discriminate|].
    simpl in Hn. cbn [scanstring] in H.
    repeat match type of H with
    | Some _ = Some _ => inversion H; subst; clear H; simpl; lia
    | None = Some _ => discriminate
    | scanstring ?x _ = Some _ =>
        apply IH in H; [simpl in *; lia | simpl in *; lia]
    | context [match ?x with _ => _ end] => destruct x eqn:?
    end.
Qed.

Lemma scanstring_shrinks (s acc : list ascii) (key : string) (r : list ascii) :
  scanstring s acc = Some (key, r) -> List.length r < List.length s.
Proof.
  apply (scanstring_shrinks_upto (List.length s)). lia.
Qed.

Lemma span_digits_length (s : list ascii) :
  List.length (snd (span_digits s)) <= List.length s.
Proof.
  induction s as [|c s IH]; simpl; [lia|].
  destruct (is_digit c); [|simpl; lia].
  destruct (span_digits s). simpl in *. lia.
Qed.

Lemma scan_integer_shrinks (s integer r : list ascii) :
  scan_integer s = Some (integer, r) -> List.length r < List.length s.
Proof.
  assert (Hdigits : forall sign t,
            match t with
            | c :: r' =>
                if (c =? "0")%char then Some (sign ++ [c], r')
                else if is_digit c then
                  let (ds, r') := span_digits t in Some (sign ++ ds, r')
                else None
            | [] => None
            end = Some (integer, r) ->
            List.length r < List.length t).
  { intros sign t H. destruct t as [|c t]; [discriminate|].
    destruct (c =? "0")%char; [inversion H; subst; simpl; lia|].
    destruct (is_digit c) eqn:Hc; [|discriminate].
    pose proof (span_digits_length t) as Hl.
    cbn [span_digits] in H. rewrite Hc in H.
    destruct (span_digits t). inversion H; subst. simpl in *. lia. }
  unfold scan_integer. intros H.
  destruct s as [|c s]; [discriminate|].
  destruct (c =? "-")%char.
  - apply (Hdigits [c] s) in H. simpl. lia.
  - apply (Hdigits [] (c :: s)) in H. exact H.
Qed.

Lemma scan_frac_length (s : list ascii) :
  List.length (snd (scan_frac s)) <= List.length s.
Proof.
  unfold scan_frac. destruct s as [|c s]; [simpl; lia|].
  destruct (c =? ".")%char; [|simpl; lia].
  pose proof (span_digits_length s) as Hl.
  destruct (span_digits s) as [[|d ds] r]; simpl in *; lia.
Qed.

Lemma scan_exp_length (s : list ascii) :
  List.length (snd (scan_exp s)) <= List.length s.
Proof.
  unfold scan_exp. destruct s as [|e s]; [simpl; lia|].
  destruct ((e =? "e")%char || (e =? "E")%char); [|simpl; lia].
  destruct s as [|c s].
  - simpl. lia.
  - destruct ((c =? "-")%char || (c =? "+")%char).
    + pose proof (span_digits_length s) as Hl.
      destruct (span_digits s) as [[|d ds] r]; simpl in *; lia.
    + pose proof (span_digits_length (c :: s)) as Hl.
      destruct (span_digits (c :: s)) as [[|d ds] r]; simpl in *; lia.
Qed.

Lemma match_number_shrinks (s : list ascii) (v : pyval) (r : list ascii) :
  match_number s = Some (v, r) -> List.length r < List.length s.
Proof.
  unfold match_number. intros H.
  destruct (scan_integer s) as [[integer r0]|] eqn:Hi; [|discriminate].
  apply scan_integer_shrinks in Hi.
  pose proof (scan_frac_length r0) as Hf.
  destruct (scan_frac r0) as [frac r1].
  pose proof (scan_exp_length r1) as He.
  destruct (scan_exp r1) as [exp r2]. simpl in *.
  destruct frac, exp; inversion H; subst; lia.
Qed.

Lemma starts_with_shrinks (lit s r : list ascii) :
  lit <> [] -> starts_with lit s = Some r -> List.length r < List.length s.
Proof.
  revert s. induction lit as [|a lit IH]; intros s Hne H; [congruence|].
  destruct s as [|b s]; [discriminate|]. simpl in H.
  destruct (a =? b)%char; [|discriminate].
  destruct lit as [|a' lit].
  - simpl in H. inversion H; subst. simpl. lia.
  - apply IH in H; [simpl in *; lia|discriminate].
Qed.

(** The facts on lengths that the equations in the context give. *)
Ltac lengths :=
  repeat match goal with
  | E : scanstring _ _ = Some _ |- _ => apply scanstring_shrinks in E
  | E : skip_ws _ = _ :: _ |- _ => apply skip_ws_cons_length in E
  | E : starts_with _ _ = Some _ |- _ =>
      apply starts_with_shrinks in E; [|discriminate]
  | E : match_number _ = Some _ |- _ => apply match_number_shrinks in E
  end.

Lemma scan_shrinks (fuel : nat) :
  (forall s v r, scan_once fuel s = Ok (v, r) ->
                 List.length r < List.length s) /\
  (forall s values v r, parse_values fuel s values = Ok (v, r) ->
                        List.length r < List.length s) /\
  (forall s pairs v r, parse_members fuel s pairs = Ok (v, r) ->
                       List.length r < List.length s).
Proof.
  induction fuel as [|fuel (IH1 & IH2 & IH3)];
    [repeat split; intros; discriminate|].
  split; [|split].
  - intros s v r H. cbn [scan_once] in H.
    repeat match type of H with
    | Ok _ = Ok _ => inversion H; subst; clear H
    | Fail = Ok _ => discriminate
    | NoFuel = Ok _ => discriminate
    | parse_members _ _ _ = Ok _ => apply IH3 in H
    | parse_values _ _ _ = Ok _ => apply IH2 in H
    | context [match ?x with _ => _ end] => destruct x eqn:?
    end; lengths; simpl in *; lia.
  - intros s values v r H. cbn [parse_values] in H.
    destruct (scan_once fuel s) as [[value r0]| |] eqn:E; try discriminate.
    apply IH1 in E.
    destruct (skip_ws r0) as [|c r1] eqn:Hws; [discriminate|].
    apply skip_ws_cons_length in Hws.
    destruct (c =? "]")%char; [inversion H; subst; lia|].
    destruct (c =? ",")%char; [|discriminate].
    apply IH2 in H. pose proof (skip_ws_length r1). lia.
  - intros s pairs v r H. cbn [parse_members] in H.
    destruct (scanstring s []) as [[key r0]|] eqn:Hkey; [|discriminate].
    destruct (skip_ws r0) as [|colon r1] eqn:Hws; [discriminate|].
    destruct (colon =? ":")%char; [|discriminate].
    destruct (scan_once fuel (skip_ws r1)) as [[value r2]| |] eqn:E;
      try discriminate.
    apply IH1 in E. pose proof (skip_ws_length r1).
    destruct (skip_ws r2) as [|c r3] eqn:Hws2; [discriminate|].
    lengths.
    destruct (c =? "}")%char; [inversion H; subst; lia|].
    destruct (c =? ",")%char; [|discriminate].
    destruct (skip_ws r3) as [|q r4] eqn:Hws3; [discriminate|].
    destruct (q =? dquote)%char; [|discriminate].
    apply IH3 in H. lengths. lia.
Qed.

Lemma scan_once_shrinks (fuel : nat) (s : list ascii) (v : pyval)
  (r : list ascii) :
  scan_once fuel s = Ok (v, r) -> List.length r < List.length s.
Proof. apply scan_shrinks. Qed.

Lemma scan_has_fuel (fuel : nat) :
  (forall s, 2 * List.length s < fuel -> scan_once fuel s <> NoFuel) /\
  (forall s values, 2 * List.length s + 1 < fuel ->
                    parse_values fuel s values <> NoFuel) /\
  (forall s pairs, 2 * List.length s + 1 < fuel ->
                   parse_members fuel s pairs <> NoFuel).
Proof.
  induction fuel as [|fuel (IH1 & IH2 & IH3)];
    [repeat split; intros; lia|].
  split; [|split].
  - intros s Hlt H. cbn [scan_once] in H.
    repeat match type of H with
    | Ok _ = NoFuel => discriminate
    | Fail = NoFuel => discriminate
    | parse_members _ _ _ = NoFuel =>
        apply IH3 in H; [exact H | lengths; simpl in *; lia]
    | parse_values _ _ _ = NoFuel =>
        apply IH2 in H; [exact H | lengths; simpl in *; lia]
    | context [match ?x with _ => _ end] => destruct x eqn:?
    end.
  - intros s values Hlt H. cbn [parse_values] in H.
    destruct (scan_once fuel s) as [[value r0]| |] eqn:E; try discriminate.
    + apply scan_once_shrinks in E.
      destruct (skip_ws r0) as [|c r1] eqn:Hws; [discriminate|].
      apply skip_ws_cons_length in Hws.
      destruct (c =? "]")%char; [discriminate|].
      destruct (c =? ",")%char; [|discriminate].
      apply IH2 in H; [exact H|]. pose proof (skip_ws_length r1). lia.
    + apply IH1 in E; [exact E | lia].
  - intros s pairs Hlt H. cbn [parse_members] in H.
    destruct (scanstring s []) as [[key r0]|] eqn:Hkey; [|discriminate].
    destruct (skip_ws r0) as [|colon r1] eqn:Hws; [discriminate|].
    destruct (colon =? ":")%char; [|discriminate].
    pose proof (skip_ws_length r1). lengths.
    destruct (scan_once fuel (skip_ws r1)) as [[value r2]| |] eqn:E;
      try discriminate.
    + apply scan_once_shrinks in E.
      destruct (skip_ws r2) as [|c r3] eqn:Hws2; [discriminate|].
      destruct (c =? "}")%char; [discriminate|].
      destruct (c =? ",")%char; [|discriminate].
      destruct (skip_ws r3) as [|q r4] eqn:Hws3; [discriminate|].
      destruct (q =? dquote)%char; [|discriminate].
      apply IH3 in H; [exact H|]. lengths. lia.
    + apply IH1 in E; [exact E | lia].
Qed.

(** [loads] returns [None] only where the decoder rejects the text. *)
Lemma loads_has_fuel (s : string) :
  scan_once (fuel_for (skip_ws (chars s))) (skip_ws (chars s)) <> NoFuel.
Proof.
  apply scan_has_fuel. unfold fuel_for. lia.
Qed.

End JsonFacts.

(** ** Builtins and dictionaries *)

Lemma py_min_eq (a b : Z) : py_min a b = Z.min a b.
Proof.
  unfold py_min. destruct (Z.ltb_spec b a); lia.
Qed.

Lemma py_max_eq (a b : Z) : py_max a b = Z.max a b.
Proof.
  unfold py_max. rewrite Z.gtb_ltb. destruct (Z.ltb_spec a b); lia.
Qed.

Lemma dict_get_in {V : Type} (d : dict V) (k : string) (v : V) :
  NoDup (dict_keys d) -> In (k, v) d -> dict_get d k = Some v.
Proof.
  induction d as [|[k' v'] d IH]; simpl; intros Hnd Hin; [tauto|].
  inversion Hnd as [|? ? Hk Hd]; subst.
  destruct Hin as [Heq|Hin].
  - inversion Heq; subst. now rewrite String.eqb_refl.
  - destruct (String.eqb_spec k' k) as [->|_].
    + exfalso. apply Hk. change k with (fst (k, v)). now apply in_map.
    + now apply IH.
Qed.

Lemma dict_set_fresh {V : Type} (d : dict V) (k : string) (v : V) :
  ~ In k (dict_keys d) -> dict_set d k v = (d ++ [(k, v)])%list.
Proof.
  induction d as [|[k' v'] d IH]; simpl; intros H; [reflexivity|].
  destruct (String.eqb_spec k' k) as [->|_]; [tauto|].
  f_equal. apply IH. tauto.
Qed.

Lemma fold_left_pointwise {A B : Type} (f g : A -> B -> A) (l : list B) :
  (forall a b, f a b = g a b) -> forall a, fold_left f l a = fold_left g l a.
Proof.
  intros Hfg. induction l as [|b l IH]; intros a; simpl; [reflexivity|].
  rewrite Hfg. apply IH.
Qed.

(** Filling a dictionary key by key from items with distinct keys lists
    the items in their order. *)
Lemma fold_dict_set_distinct {V W : Type} (f : string -> V -> W)
  (items : dict V) (acc : dict W) :
  NoDup (dict_keys acc ++ dict_keys items)%list ->
  fold_left (fun d item => dict_set d (fst item) (f (fst item) (snd item)))
    items acc
  = (acc ++ map (fun item => (fst item, f (fst item) (snd item))) items)%list.
Proof.
  revert acc. induction items as [|[k v] items IH]; intros acc Hnd; simpl.
  - now rewrite app_nil_r.
  - simpl in Hnd. rewrite dict_set_fresh.
    + rewrite IH.
      * now rewrite <- app_assoc.
      * unfold dict_keys in *. rewrite map_app. simpl.
        rewrite <- app_assoc. exact Hnd.
    + apply NoDup_remove_2 in Hnd. intros Hin. apply Hnd.
      apply in_or_app. now left.
Qed.

(** ** Intensity clamping *)

Lemma _function_clamp_range_map (actions : dict Z) :
  NoDup (dict_keys actions) ->
  _function_clamp_range actions
  = map (fun item => (fst item, clamped (fst item) (snd item))) actions.
Proof.
  intros Hnd. unfold _function_clamp_range.
  rewrite <- (app_nil_l (map _ actions)).
  rewrite <- (fold_dict_set_distinct clamped actions []) by exact Hnd.
  apply fold_left_pointwise. intros d [k v]. unfold clamped. cbn [fst snd].
  destruct (range_lookup _function_range k);
    now rewrite ?py_max_eq, ?py_min_eq.
Qed.

(** C2.  For a mapping with its keys distinct (a [dict]), the clamped
    mapping has the same keys in the same order; the value of an action
    with a declared range [min, max] is [max(min(v, max), min)], the value
    of an action absent from the range table is unchanged; the vibration
    channels, rotation, thrusting, fingering, suction and "All" have range
    0..20, Pump and Depth have range 0..3. *)
Theorem function_clamp_range_spec (actions : dict Z) :
  NoDup (dict_keys actions) ->
  dict_keys (_function_clamp_range actions) = dict_keys actions /\
  (forall action v r,
      In (action, v) actions ->
      range_lookup _function_range action = Some r ->
      dict_get (_function_clamp_range actions) action
      = Some (Z.max (Z.min v (max r)) (min r))) /\
  (forall action v,
      In (action, v) actions ->
      range_lookup _function_range action = None ->
      dict_get (_function_clamp_range actions) action = Some v) /\
  (forall a,
      In a [VIBRATE; VIBRATE1; VIBRATE2; VIBRATE3; ROTATE; THRUSTING;
            FINGERING; SUCTION; ALL] ->
      range_lookup _function_range (Actions_value a)
      = Some {| min := 0; max := 20 |}) /\
  (forall a,
      In a [PUMP; DEPTH] ->
      range_lookup _function_range (Actions_value a)
      = Some {| min := 0; max := 3 |}).
Proof.
  intros Hnd.
  assert (Hkeys : dict_keys (_function_clamp_range actions) = dict_keys actions).
  { rewrite _function_clamp_range_map by exact Hnd.
    unfold dict_keys. rewrite map_map. reflexivity. }
  assert (Hget : forall action v, In (action, v) actions ->
            dict_get (_function_clamp_range actions) action
            = Some (clamped action v)).
  { intros action v Hin. apply dict_get_in.
    - now rewrite Hkeys.
    - rewrite _function_clamp_range_map by exact Hnd.
      apply (in_map (fun item => (fst item, clamped (fst item) (snd item)))
               actions (action, v) Hin). }
  split; [exact Hkeys|].
  split; [|split; [|split]].
  - intros action v r Hin Hr. rewrite (Hget action v Hin).
    unfold clamped. now rewrite Hr.
  - intros action v Hin Hr. rewrite (Hget action v Hin).
    unfold clamped. now rewrite Hr.
  - intros a Ha. simpl in Ha.
    repeat (destruct Ha as [<-|Ha]; [reflexivity|]). contradiction.
  - intros a Ha. simpl in Ha.
    repeat (destruct Ha as [<-|Ha]; [reflexivity|]). contradiction.
Qed.

Lemma sample_actions_distinct : NoDup (dict_keys sample_actions).
Proof.
  repeat constructor; simpl; intuition discriminate.
Defined.

Lemma function_clamp_range_spec_witness :
  dict_keys (_function_clamp_range sample_actions) = ["Vibrate"; "Pump"; "Custom"]
  /\ dict_get (_function_clamp_range sample_actions) "Vibrate" = Some 20
  /\ dict_get (_function_clamp_range sample_actions) "Pump" = Some 0
  /\ dict_get (_function_clamp_range sample_actions) "Custom" = Some 99.
Proof.
  destruct (function_clamp_range_spec sample_actions sample_actions_distinct)
    as (Hkeys & Hin & Hout & _).
  split; [exact Hkeys|].
  split; [|split].
  - apply (Hin "Vibrate" 25 {| min := 0; max := 20 |});
      [simpl; tauto | reflexivity].
  - apply (Hin "Pump" (-1) {| min := 0; max := 3 |});
      [simpl; tauto | reflexivity].
  - apply (Hout "Custom" 99); [simpl; tauto | reflexivity].
Defined.

(** ** Action letters *)

Lemma Member_nonempty (a : Actions) : nonempty_str (Member a) = true.
Proof. destruct a; reflexivity. Qed.

Lemma letters_loop_nonempty (actions : list action_entry) :
  forallb nonempty_str actions = true ->
  forall letter_codes,
    letters_loop actions letter_codes
    = Some (letter_codes
            ++ filter is_valid_letter
                 (map (fun e => first_letter (entry_text e)) actions))%list.
Proof.
  induction actions as [|e actions IH]; intros Hall acc.
  - simpl. now rewrite app_nil_r.
  - cbn [forallb] in Hall. apply andb_prop in Hall. destruct Hall as [He Hall].
    cbn [letters_loop map filter].
    unfold nonempty_str in He. rewrite He.
    fold (is_valid_letter (first_letter (entry_text e))).
    destruct (is_valid_letter (first_letter (entry_text e))); cbn [negb].
    + rewrite IH by exact Hall. now rewrite <- app_assoc.
    + now apply IH.
Qed.

Lemma letters_loop_abort (actions : list action_entry) (e : action_entry) :
  In e actions -> nonempty_str e = false ->
  forall letter_codes, letters_loop actions letter_codes = None.
Proof.
  induction actions as [|x actions IH]; intros Hin He acc; [destruct Hin|].
  cbn [letters_loop]. fold (nonempty_str x).
  destruct Hin as [->|Hin].
  - rewrite He. destruct e as [s|a|v]; try reflexivity.
    now rewrite Member_nonempty in He.
  - destruct (nonempty_str x) eqn:Hx.
    + destruct (negb _); now apply IH.
    + destruct x as [s|a|v]; try reflexivity.
      now rewrite Member_nonempty in Hx.
Qed.

Lemma filter_all_valid (l : list string) :
  Forall (fun x => In x valid_letters) (filter is_valid_letter l).
Proof.
  apply Forall_forall. intros x Hx. apply filter_In in Hx.
  destruct Hx as [_ Hx]. unfold is_valid_letter, str_in in Hx.
  apply existsb_exists in Hx. destruct Hx as (y & Hy & Heq).
  apply String.eqb_eq in Heq. now subst.
Qed.

Lemma convert_nonempty (actions : list action_entry) :
  forallb nonempty_str actions = true ->
  _convert_actions_to_letters actions
  = join ","
      (filter is_valid_letter
         (map (fun e => first_letter (entry_text e)) actions)).
Proof.
  intros Hall. unfold _convert_actions_to_letters.
  rewrite (letters_loop_nonempty actions Hall []). simpl.
  now destruct (filter _ _).
Qed.

Lemma convert_abort (actions : list action_entry) (e : action_entry) :
  In e actions -> nonempty_str e = false ->
  _convert_actions_to_letters actions = "".
Proof.
  intros Hin He. unfold _convert_actions_to_letters.
  now rewrite (letters_loop_abort actions e Hin He []).
Qed.

Lemma forallb_false_witness {A : Type} (p : A -> bool) (l : list A) :
  forallb p l = false -> exists x, In x l /\ p x = false.
Proof.
  induction l as [|a l IH]; simpl; intros H; [discriminate|].
  destruct (p a) eqn:Hp.
  - destruct (IH H) as (x & Hin & Hx). exists x. tauto.
  - exists a. tauto.
Qed.

(** ** Pattern strings *)

Lemma pattern_raw_payload_get (strength rule : string) (time : pyval)
  (toy_id : option string) :
  let sent := pattern_raw_payload strength rule time toy_id in
  dict_get sent "command" = Some (PStr "Pattern") /\
  dict_get sent "rule" = Some (PStr rule) /\
  dict_get sent "strength" = Some (PStr strength) /\
  dict_get sent "timeSec" = Some time /\
  dict_get sent "apiVer" = Some (PInt 2) /\
  dict_get sent "toy" = option_map PStr toy_id.
Proof.
  destruct toy_id; repeat split; reflexivity.
Qed.

Lemma send_command_last_command (self : GameModeWrapper) (post : transport)
  (command_data : pyval) (timeout : Z) :
  last_command (state (send_command self post command_data timeout))
  = Some command_data.
Proof.
  unfold send_command.
  destruct (post _) as [e|[response|]].
  - destruct (is_ConnectionError e); [reflexivity|].
    destruct (is_Timeout e); [reflexivity|].
    destruct (is_RequestException e); reflexivity.
  - destruct (negb (Response_ok response)); [reflexivity|].
    destruct (negb (status_code response =? 200)); [reflexivity|].
    destruct (Response_json response) as [j|e]; [|reflexivity].
    destruct (get_code (_parse_json j)); reflexivity.
  - reflexivity.
Qed.

Lemma pattern_rule_interval (actions : option (list action_entry))
  (interval : Z) :
  let chosen := match actions with None => [Member ALL] | Some l => l end in
  let feature :=
    if ALL_in chosen then "" else _convert_actions_to_letters chosen in
  pattern_rule actions interval
  = "V:1;F:" ++ feature ++ ";S:"
      ++ str_int (Z.min (Z.max interval 100) 1000) ++ "#".
Proof.
  unfold pattern_rule. rewrite py_min_eq, py_max_eq.
  destruct (ALL_in _); reflexivity.
Qed.

(** C3.  Whatever the integer list, the actions and the interval are, the
    strength string [pattern_request] hands on is the first 50 elements,
    each clamped to 0..20 and written in decimal, joined with semicolons (at
    most 50 values, exactly min(50, length) of them, each within 0..20), and
    the rule string is V:1;F:<feature>;S:<interval># where the interval is
    min(max(interval, 100), 1000), within 100..1000, and the feature field is
    the action letters, or empty when the actions contain "All". *)
Theorem pattern_request_strings (self : GameModeWrapper) (post : transport)
  (pattern : list Z) (actions : option (list action_entry)) (interval : Z)
  (time : pyval) (toy_id : option string) :
  let kept := map (fun v => Z.max 0 (Z.min v 20)) (firstn 50 pattern) in
  let effective := Z.min (Z.max interval 100) 1000 in
  let chosen := match actions with None => [Member ALL] | Some l => l end in
  let feature :=
    if ALL_in chosen then "" else _convert_actions_to_letters chosen in
  let sent := pattern_payload pattern actions interval time toy_id in
  dict_get sent "strength" = Some (PStr (join ";" (map str_int kept))) /\
  dict_get sent "rule"
  = Some (PStr ("V:1;F:" ++ feature ++ ";S:" ++ str_int effective ++ "#")) /\
  List.length kept = Nat.min 50 (List.length pattern) /\
  (List.length kept <= 50)%nat /\
  Forall (fun v => 0 <= v <= 20) kept /\
  100 <= effective <= 1000 /\
  last_command
    (state (pattern_request self post pattern actions interval time toy_id))
  = Some (PDict sent).
Proof.
  cbv zeta.
  destruct (pattern_raw_payload_get (pattern_strength pattern)
              (pattern_rule actions interval) time toy_id)
    as (_ & Hrule & Hstrength & _).
  unfold pattern_payload.
  split; [|split; [|split; [|split; [|split; [|split]]]]].
  - rewrite Hstrength. unfold pattern_strength.
    rewrite (map_ext (fun num => py_min (py_max 0 num) 20)
               (fun v => Z.max 0 (Z.min v 20))); [reflexivity|].
    intros v. rewrite py_min_eq, py_max_eq. lia.
  - rewrite Hrule. f_equal. f_equal. apply pattern_rule_interval.
  - now rewrite length_map, length_firstn.
  - rewrite length_map, length_firstn. lia.
  - apply Forall_forall. intros v Hv. apply in_map_iff in Hv.
    destruct Hv as (x & <- & _). lia.
  - lia.
  - apply send_command_last_command.
Qed.

(** C4.  The letter encoding is a comma-joined string of letters of
    v, r, p, t, f, s, d: the lowercased first letters of the entries, those
    outside the set left out, when every entry is a non-empty string.
    ["Vibrate", "Rotate"] gives "v,r"; a list with an empty string, or with
    an entry that is not a string, gives the empty string; with "All" among
    the actions the rule has an empty feature field; interval 250 with
    ["Pump"] gives exactly V:1;F:p;S:250#, and with ["All"] the field is
    F:; and not F:a;. *)
Theorem convert_actions_to_letters_spec :
  (forall actions, exists letters,
      Forall (fun x => In x valid_letters) letters /\
      _convert_actions_to_letters actions = join "," letters) /\
  (forall actions,
      forallb nonempty_str actions = true ->
      _convert_actions_to_letters actions
      = join ","
          (filter is_valid_letter
             (map (fun e => first_letter (entry_text e)) actions))) /\
  _convert_actions_to_letters [Plain "Vibrate"; Plain "Rotate"] = "v,r" /\
  (forall actions,
      In (Plain "") actions -> _convert_actions_to_letters actions = "") /\
  (forall actions v,
      In (NotStr v) actions -> _convert_actions_to_letters actions = "") /\
  (forall actions interval,
      ALL_in actions = true ->
      pattern_rule (Some actions) interval
      = "V:1;F:;S:" ++ str_int (Z.min (Z.max interval 100) 1000) ++ "#") /\
  pattern_rule (Some [Plain "Pump"]) 250 = "V:1;F:p;S:250#" /\
  pattern_rule (Some [Plain "All"]) 250 = "V:1;F:;S:250#" /\
  pattern_rule (Some [Member ALL]) 250 = "V:1;F:;S:250#" /\
  pattern_rule (Some [Plain "All"]) 250 <> "V:1;F:a;S:250#".
Proof.
  split; [|split; [|split; [|split; [|split; [|split]]]]].
  - intros actions. destruct (forallb nonempty_str actions) eqn:Hall.
    + eexists. split; [apply filter_all_valid|].
      now apply convert_nonempty.
    + apply forallb_false_witness in Hall. destruct Hall as (e & Hin & He).
      exists []. split; [constructor|].
      now apply (convert_abort actions e).
  - exact convert_nonempty.
  - reflexivity.
  - intros actions Hin. now apply (convert_abort actions (Plain "")).
  - intros actions v Hin. now apply (convert_abort actions (NotStr v)).
  - intros actions interval Hall.
    rewrite pattern_rule_interval. cbv zeta. now rewrite Hall.
  - repeat split; try reflexivity. discriminate.
Qed.

Lemma convert_actions_to_letters_spec_witness :
  _convert_actions_to_letters [Plain "Vibrate"; Plain ""; Member ROTATE] = ""
  /\ _convert_actions_to_letters [Member PUMP; NotStr (PInt 3)] = ""
  /\ _convert_actions_to_letters [Member THRUSTING; Plain "xyz"; Plain "Depth"]
     = "t,d"
  /\ pattern_rule (Some [Plain "Pump"; Member ALL]) 5000 = "V:1;F:;S:1000#".
Proof.
  destruct convert_actions_to_letters_spec
    as (_ & Hstr & _ & Hempty & Hother & Hall & _).
  split; [|split; [|split]].
  - apply Hempty. simpl. tauto.
  - apply (Hother _ (PInt 3)). simpl. tauto.
  - apply (Hstr [Member THRUSTING; Plain "xyz"; Plain "Depth"]). reflexivity.
  - apply (Hall [Plain "Pump"; Member ALL] 5000). reflexivity.
Defined.

(** C5.  With the pattern [1, 2, 3, 4, 5, 20], the default interval 100
    and the default actions, [pattern_request] builds the payload that
    [pattern_request_raw] builds from "1;2;3;4;5;20" and "V:1;F:;S:100#",
    whatever the time and the target are, and the two calls then do the
    same. *)
Theorem pattern_request_default_is_raw (self : GameModeWrapper)
  (post : transport) (time : pyval) (toy_id : option string) :
  pattern_payload [1; 2; 3; 4; 5; 20] None 100 time toy_id
  = pattern_raw_payload "1;2;3;4;5;20" "V:1;F:;S:100#" time toy_id /\
  pattern_request self post [1; 2; 3; 4; 5; 20] None 100 time toy_id
  = pattern_request_raw self post "1;2;3;4;5;20" "V:1;F:;S:100#" time toy_id.
Proof.
  split; reflexivity.
Qed.

(** ** The gateway: failures *)

Lemma ConnectionError_is_RequestException (e : exn) :
  is_ConnectionError e = true -> is_RequestException e = true.
Proof. destruct e; simpl; congruence. Qed.

Lemma Timeout_is_RequestException (e : exn) :
  is_Timeout e = true -> is_RequestException e = true.
Proof. destruct e; simpl; congruence. Qed.

(** C1.  Whatever the payload, the timeout and the instance are, when the
    transport fails (connection failure, timeout, another request-level
    failure, no response object, or a status other than 200) [send_command]
    returns [None]; it does not raise. *)
Theorem send_command_failure_returns_None (self : GameModeWrapper)
  (post : transport) (command_data : pyval) (timeout : Z) :
  transport_failure (post (sent_request self command_data timeout)) ->
  result (send_command self post command_data timeout) = Return None.
Proof.
  intros Hfail. unfold send_command.
  change (post _) with (post (sent_request self command_data timeout)).
  destruct (post (sent_request self command_data timeout)) as [e|[response|]].
  - assert (Hreq : is_RequestException e = true).
    { inversion Hfail; subst;
        auto using ConnectionError_is_RequestException,
                   Timeout_is_RequestException. }
    destruct (is_ConnectionError e); [reflexivity|].
    destruct (is_Timeout e); [reflexivity|].
    now rewrite Hreq.
  - destruct (negb (Response_ok response)); [reflexivity|].
    inversion Hfail as [| | | |? Hstatus]; subst.
    apply Z.eqb_neq in Hstatus. now rewrite Hstatus.
  - reflexivity.
Qed.

Lemma send_command_failure_returns_None_witness :
  result (send_command sample_gateway (fun _ => Raises (Timeout "timed out"))
            (PDict get_toys_payload) 10) = Return None
  /\ result (send_command sample_gateway
               (fun _ => Responds (Some {| status_code := 404; text := "" |}))
               (PDict get_toys_payload) 10) = Return None
  /\ result (send_command sample_gateway
               (fun _ => Responds (Some {| status_code := 204; text := "" |}))
               (PDict get_toys_payload) 10) = Return None.
Proof.
  split; [|split].
  - apply send_command_failure_returns_None.
    apply timeout_expiry. reflexivity.
  - apply send_command_failure_returns_None.
    apply bad_status. simpl. discriminate.
  - apply send_command_failure_returns_None.
    apply bad_status. simpl. discriminate.
Defined.

(** ** The gateway: response normalization *)

Lemma _parse_json_dict (d : list (string * pyval)) :
  _parse_json (PDict d)
  = PDict (map (fun item => (fst item, _parse_json (snd item))) d).
Proof.
  simpl. f_equal. induction d as [|[k v] d IH]; [reflexivity|].
  simpl. now rewrite IH.
Qed.

(** C6, as stated, fails: the string under "a", which the parse of the
    string under "x" produced, is valid JSON and is left a string. *)
Lemma parse_json_is_one_level :
  _parse_json doubly_encoded
  = PDict [("x", PDict [("a", PStr (Json.jq "{'b':1}"))])]
  /\ Json.loads (Json.jq "{'b':1}") = Some (PDict [("b", PInt 1)])
  /\ _parse_json doubly_encoded
     <> PDict [("x", PDict [("a", PDict [("b", PInt 1)])])].
Proof.
  split; [vm_compute; reflexivity|].
  split; [vm_compute; reflexivity|].
  vm_compute. discriminate.
Qed.

(** C6, amended.  Normalization walks the decoded value: a string that
    parses as JSON is replaced by the parsed structure, which is taken as it
    is and not walked again; a string that does not parse is left as it is;
    a mapping is rebuilt key by key and a sequence element by element from
    the normalized values; any other value is unchanged.  So a field whose
    value is the string [{"a":1}] becomes the structure, also inside
    sequences and nested mappings of the decoded body. *)
Theorem parse_json_spec :
  (forall s parsed, Json.loads s = Some parsed -> _parse_json (PStr s) = parsed) /\
  (forall s, Json.loads s = None -> _parse_json (PStr s) = PStr s) /\
  (forall d,
      _parse_json (PDict d)
      = PDict (map (fun item => (fst item, _parse_json (snd item))) d)) /\
  (forall l, _parse_json (PList l) = PList (map _parse_json l)) /\
  (forall v,
      match v with PStr _ | PDict _ | PList _ => True | _ => _parse_json v = v end) /\
  _parse_json (PDict [("field", PStr (Json.jq "{'a':1}")); ("code", PInt 200)])
  = PDict [("field", PDict [("a", PInt 1)]); ("code", PInt 200)] /\
  _parse_json
    (PDict [("toys", PList [PStr (Json.jq "{'a':1}"); PStr "plain";
                            PDict [("inner", PStr (Json.jq "[1, {'a':1}]"))]])])
  = PDict [("toys", PList [PDict [("a", PInt 1)]; PStr "plain";
                           PDict [("inner",
                                   PList [PInt 1; PDict [("a", PInt 1)]])]])].
Proof.
  split; [|split; [|split; [|split; [|split; [|split]]]]].
  - intros s parsed H. simpl. now rewrite H.
  - intros s H. simpl. now rewrite H.
  - exact _parse_json_dict.
  - reflexivity.
  - intros v. destruct v; trivial.
  - vm_compute. reflexivity.
  - vm_compute. reflexivity.
Qed.

Lemma parse_json_spec_witness :
  _parse_json (PStr (Json.jq "{'a':'{\'b\':1}'}"))
  = PDict [("a", PStr (Json.jq "{'b':1}"))]
  /\ _parse_json (PStr "Toy Not Connected") = PStr "Toy Not Connected".
Proof.
  destruct parse_json_spec as (Hparsed & Hplain & _).
  split.
  - apply Hparsed. vm_compute. reflexivity.
  - apply Hplain. vm_compute. reflexivity.
Defined.

(** ** Function payload *)

(** C7, as stated, fails on the encoding of the flag: a supplied
    stop-previous flag is sent as the integer 1 or 0, not as a boolean. *)
Lemma function_payload_flag_is_integer :
  dict_get (function_payload [("Vibrate", 5)] (PInt 0) None None None (Some true))
    "stopPrevious" = Some (PInt 1)
  /\ dict_get (function_payload [("Vibrate", 5)] (PInt 0) None None None (Some false))
       "stopPrevious" = Some (PInt 0)
  /\ dict_get (function_payload [("Vibrate", 5)] (PInt 0) None None None (Some true))
       "stopPrevious" <> Some (PBool true).
Proof.
  repeat split; try reflexivity. vm_compute. discriminate.
Qed.

(** C7, amended.  The payload of [function_request] has the command
    "Function", the comma-joined action:value string of the clamped
    actions, the requested duration and version 1; the loop-on and loop-off
    times (each floored at 1), the target and the stop-previous flag (as the
    integer 1 for true, 0 for false) are present exactly when the caller
    supplies them, and the key of an omitted one is absent. *)
Theorem function_payload_spec (actions : dict Z) (time : pyval)
  (loop_on_time loop_off_time : option Z) (toy_id : option string)
  (stop_last : option bool) :
  let sent :=
    function_payload actions time loop_on_time loop_off_time toy_id stop_last in
  dict_get sent "command" = Some (PStr "Function") /\
  dict_get sent "action"
  = Some (PStr (join ","
                  (map (fun item => fst item ++ ":" ++ str_int (snd item))
                     (_function_clamp_range actions)))) /\
  dict_get sent "timeSec" = Some time /\
  dict_get sent "apiVer" = Some (PInt 1) /\
  dict_get sent "loopRunningSec"
  = option_map (fun t => PInt (Z.max t 1)) loop_on_time /\
  dict_get sent "loopPauseSec"
  = option_map (fun t => PInt (Z.max t 1)) loop_off_time /\
  dict_get sent "toy" = option_map PStr toy_id /\
  dict_get sent "stopPrevious"
  = option_map (fun b : bool => PInt (if b then 1 else 0)) stop_last /\
  dict_keys sent
  = (["command"; "action"; "timeSec"; "apiVer"]
       ++ optional_key "loopRunningSec" loop_on_time
       ++ optional_key "loopPauseSec" loop_off_time
       ++ optional_key "toy" toy_id
       ++ optional_key "stopPrevious" stop_last)%list.
Proof.
  cbv zeta. unfold function_payload.
  destruct loop_on_time, loop_off_time, toy_id, stop_last;
    cbn [option_map]; rewrite <- ?py_max_eq; repeat split; reflexivity.
Qed.

(** ** The gateway: classification of the response code *)

(** C8, as stated, fails at 506: the table's text is not the one claimed. *)
Lemma error_message_506 :
  error_message 506 = "Server Error. Restart Lovense Connect."
  /\ error_message 506 <> "Server Error — restart required".
Proof.
  split; [reflexivity|]. vm_compute. discriminate.
Qed.

(** A boolean code is an [int] for [isinstance]. *)
Lemma response_msg_bool :
  response_msg (PBool true)
  = [Lit "Response: "; Str (PBool true); Lit ", "; Lit "Unknown Error"].
Proof. reflexivity. Qed.

Lemma error_message_in_table (code : Z) (msg : string) :
  In (code, msg) error_codes -> error_message code = msg.
Proof.
  simpl. intros H.
  repeat (destruct H as [H|H]; [inversion H; subst; reflexivity|]).
  contradiction.
Qed.

Lemma error_codes_get_default (table : list (Z * string)) (code : Z)
  (default : string) :
  ~ In code (map fst table) -> error_codes_get table code default = default.
Proof.
  induction table as [|[c m] table IH]; simpl; intros H; [reflexivity|].
  destruct (Z.eqb_spec c code) as [->|_]; [tauto|].
  apply IH. tauto.
Qed.

(** C8, amended.  After a call answered with status 200 whose body
    normalizes to a mapping, the code found under "code" (or [None]) is
    classified: an integer of the table maps to its text (402 to "Toy Not
    Connected", 506 to "Server Error. Restart Lovense Connect."), another
    integer (999) to "Unknown Error" (a boolean counts as the integer 1 or
    0), and a missing code or one that is not an integer is reported as an
    unknown response code; the message is printed when logging is on, and in
    each case the normalized response is returned. *)
Theorem send_command_classifies (self : GameModeWrapper) (post : transport)
  (command_data : pyval) (timeout : Z) (response : Response) (body : pyval)
  (d : dict pyval) :
  post (sent_request self command_data timeout) = Responds (Some response) ->
  status_code response = 200 ->
  Json.loads (text response) = Some body ->
  _parse_json body = PDict d ->
  let response_code :=
    match dict_get d "code" with Some v => v | None => PNone end in
  let r := send_command self post command_data timeout in
  result r = Return (Some (PDict d)) /\
  printed r
  = (when (log self) [[Str command_data]]
       ++ when (log self)
            [response_msg response_code; [Dumps (PDict d) 4]; []])%list /\
  (forall code,
      as_int response_code = Some code ->
      response_msg response_code
      = [Lit "Response: "; Str response_code; Lit ", ";
         Lit (error_message code)]) /\
  (as_int response_code = None ->
   response_msg response_code
   = [Lit "Response: Unknown response code "; Str response_code]) /\
  (forall code msg, In (code, msg) error_codes -> error_message code = msg) /\
  (forall code,
      ~ In code (map fst error_codes) -> error_message code = "Unknown Error") /\
  error_message 402 = "Toy Not Connected" /\
  error_message 506 = "Server Error. Restart Lovense Connect." /\
  error_message 999 = "Unknown Error".
Proof.
  intros Hpost Hstatus Hbody Hdict. cbv zeta.
  assert (Hrun :
    send_command self post command_data timeout
    = {| state := set_last_command self command_data;
         printed :=
           (when (log self) [[Str command_data]]
              ++ when (log self)
                   [response_msg
                      match dict_get d "code" with Some v => v | None => PNone end;
                    [Dumps (PDict d) 4]; []])%list;
         result := Return (Some (PDict d)) |}).
  { unfold send_command.
    change (post _) with (post (sent_request self command_data timeout)).
    rewrite Hpost. unfold Response_ok, Response_json.
    rewrite Hstatus, Hbody. cbn [Z.leb Z.ltb Z.compare Pos.compare
      Pos.compare_cont andb negb Z.eqb Pos.eqb].
    rewrite Hdict. unfold get_code.
    destruct (dict_get d "code"); reflexivity. }
  rewrite Hrun. cbn [result printed].
  split; [reflexivity|]. split; [reflexivity|].
  split; [|split; [|split; [|split]]].
  - intros code Hcode. unfold response_msg. now rewrite Hcode.
  - intros Hcode. unfold response_msg. now rewrite Hcode.
  - exact error_message_in_table.
  - intros code. apply error_codes_get_default.
  - repeat split; reflexivity.
Qed.

Lemma send_command_classifies_witness :
  let r :=
    send_command logging_gateway
      (answers 200 (Json.jq "{'code':402,'type':'OK'}"))
      (PDict get_toys_payload) 10 in
  result r = Return (Some (PDict [("code", PInt 402); ("type", PStr "OK")]))
  /\ printed r
     = [ [Str (PDict get_toys_payload)];
         [Lit "Response: "; Str (PInt 402); Lit ", "; Lit "Toy Not Connected"];
         [Dumps (PDict [("code", PInt 402); ("type", PStr "OK")]) 4];
         [] ].
Proof.
  cbv zeta.
  destruct (send_command_classifies logging_gateway
              (answers 200 (Json.jq "{'code':402,'type':'OK'}"))
              (PDict get_toys_payload) 10
              {| status_code := 200;
                 text := Json.jq "{'code':402,'type':'OK'}" |}
              (PDict [("code", PInt 402); ("type", PStr "OK")])
              [("code", PInt 402); ("type", PStr "OK")])
    as (Hresult & Hprinted & _).
  - reflexivity.
  - reflexivity.
  - vm_compute. reflexivity.
  - vm_compute. reflexivity.
  - split; [exact Hresult|]. rewrite Hprinted. reflexivity.
Defined.

(** ** The last command *)

Lemma perform_last_command (self : GameModeWrapper) (post : transport)
  (c : call) :
  last_command (state (perform self post c)) = Some (attempted c).
Proof.
  destruct c; apply send_command_last_command.
Qed.

Lemma session_app (self : GameModeWrapper) (calls more : list (call * transport)) :
  session self (calls ++ more) = session (session self calls) more.
Proof.
  revert self. induction calls as [|[c post] calls IH]; intros self;
    [reflexivity|]. simpl. apply IH.
Qed.

(** C9.  A new instance has no last command; after any call, however the
    transport behaves and however the call ends (a response, [None] or an
    exception), the last command is the payload of that call, so after any
    sequence of calls it is the payload attempted last; the instance a call
    leaves does not depend on what the transport does. *)
Theorem last_command_is_last_attempt :
  (forall app_name local_ip port ssl_port logging,
      last_command (init app_name local_ip port ssl_port logging) = None) /\
  (forall self post c,
      last_command (state (perform self post c)) = Some (attempted c)) /\
  (forall self calls c post,
      last_command (session self (calls ++ [(c, post)])) = Some (attempted c)) /\
  (forall self post post' c,
      state (perform self post c) = state (perform self post' c)).
Proof.
  split; [reflexivity|]. split; [exact perform_last_command|]. split.
  - intros self calls c post. rewrite session_app. simpl.
    apply perform_last_command.
  - assert (Hsend : forall self post command_data timeout,
              state (send_command self post command_data timeout)
              = set_last_command self command_data).
    { intros self post command_data timeout. unfold send_command.
      destruct (post _) as [e|[response|]].
      - destruct (is_ConnectionError e); [reflexivity|].
        destruct (is_Timeout e); [reflexivity|].
        destruct (is_RequestException e); reflexivity.
      - destruct (negb (Response_ok response)); [reflexivity|].
        destruct (negb (status_code response =? 200)); [reflexivity|].
        destruct (Response_json response) as [j|e]; [|reflexivity].
        destruct (get_code (_parse_json j)); reflexivity.
      - reflexivity. }
    intros self post post' c.
    destruct c; unfold perform, function_request, stop, pattern_request,
      pattern_request_raw, preset_request, get_toys, get_toys_name;
      now rewrite !Hsend.
Qed.

(** ** The gateway: errors past the boundary *)

Lemma send_command_undecodable_body (self : GameModeWrapper) (post : transport)
  (command_data : pyval) (timeout : Z) (response : Response) :
  post (sent_request self command_data timeout) = Responds (Some response) ->
  status_code response = 200 ->
  Json.loads (text response) = None ->
  result (send_command self post command_data timeout)
  = Raise (JSONDecodeError "Expecting value").
Proof.
  intros Hpost Hstatus Hbody. unfold send_command.
  change (post _) with (post (sent_request self command_data timeout)).
  rewrite Hpost. unfold Response_ok, Response_json.
  rewrite Hstatus, Hbody. reflexivity.
Qed.

Lemma send_command_body_not_mapping (self : GameModeWrapper) (post : transport)
  (command_data : pyval) (timeout : Z) (response : Response) (body : pyval) :
  post (sent_request self command_data timeout) = Responds (Some response) ->
  status_code response = 200 ->
  Json.loads (text response) = Some body ->
  is_dict (_parse_json body) = false ->
  result (send_command self post command_data timeout)
  = Raise (AttributeError "object has no attribute 'get'").
Proof.
  intros Hpost Hstatus Hbody Hdict. unfold send_command.
  change (post _) with (post (sent_request self command_data timeout)).
  rewrite Hpost. unfold Response_ok, Response_json.
  rewrite Hstatus, Hbody.
  cbn [Z.leb Z.ltb Z.compare Pos.compare Pos.compare_cont andb negb Z.eqb
         Pos.eqb].
  destruct (_parse_json body); try discriminate; reflexivity.
Qed.

(** C10.  With status 200, [send_command] raises instead of returning
    [None] when the body is not valid JSON (the error of [Response.json]),
    and when the body decodes to a value that is not a mapping, such as an
    array or a number (the error of the missing [get]): nothing catches
    either. *)
Theorem send_command_raises_past_boundary (self : GameModeWrapper)
  (command_data : pyval) (timeout : Z) :
  (exists body e,
      Json.loads body = None /\
      result (send_command self (answers 200 body) command_data timeout)
      = Raise e) /\
  (exists body l e,
      Json.loads body = Some (PList l) /\
      result (send_command self (answers 200 body) command_data timeout)
      = Raise e) /\
  (exists body n e,
      Json.loads body = Some (PInt n) /\
      result (send_command self (answers 200 body) command_data timeout)
      = Raise e).
Proof.
  split; [|split].
  - exists "<html>Bad Gateway</html>", (JSONDecodeError "Expecting value").
    split; [vm_compute; reflexivity|].
    now apply (send_command_undecodable_body self _ command_data timeout
                 {| status_code := 200; text := "<html>Bad Gateway</html>" |}).
  - exists "[1, 2]", [PInt 1; PInt 2],
      (AttributeError "object has no attribute 'get'").
    split; [vm_compute; reflexivity|].
    now apply (send_command_body_not_mapping self _ command_data timeout
                 {| status_code := 200; text := "[1, 2]" |}
                 (PList [PInt 1; PInt 2])).
  - exists "5", 5, (AttributeError "object has no attribute 'get'").
    split; [vm_compute; reflexivity|].
    now apply (send_command_body_not_mapping self _ command_data timeout
                 {| status_code := 200; text := "5" |} (PInt 5)).
Qed.

(** * Further properties of the wrapper *)

(** ** Clamping *)



Lemma clamped_idempotent (action : string) (v : Z) :
  clamped action (clamped action v) = clamped action v.
Proof.
  unfold clamped. destruct (range_lookup _function_range action); lia.
Qed.

Lemma _function_clamp_range_keys (actions : dict Z) :
  NoDup (dict_keys actions) ->
  dict_keys (_function_clamp_range actions) = dict_keys actions.
Proof.
  intros Hnd. rewrite _function_clamp_range_map by exact Hnd.
  unfold dict_keys. now rewrite map_map.
Qed.

(** X1.  Clamping a mapping that is already clamped changes nothing. *)
Theorem function_clamp_range_idempotent (actions : dict Z) :
  NoDup (dict_keys actions) ->
  _function_clamp_range (_function_clamp_range actions)
  = _function_clamp_range actions.
Proof.
  intros Hnd.
  rewrite (_function_clamp_range_map (_function_clamp_range actions))
    by (now rewrite _function_clamp_range_keys).
  rewrite (_function_clamp_range_map actions Hnd), map_map.
  apply map_ext. intros [k v]. cbn [fst snd].
  now rewrite clamped_idempotent.
Qed.

Lemma function_clamp_range_idempotent_witness :
  _function_clamp_range (_function_clamp_range sample_actions)
  = [("Vibrate", 20); ("Pump", 0); ("Custom", 99)].
Proof.
  rewrite (function_clamp_range_idempotent sample_actions
             sample_actions_distinct).
  reflexivity.
Defined.



(** ** Payloads of the builders *)

(** X3.  The payload of every operation that builds one is a mapping with
    pairwise distinct keys, it names one of the five command kinds under
    "command", and it has a "toy" entry exactly when the caller names a
    target, holding that target. *)
Theorem built_payload_well_formed (c : call) :
  is_builder c = true ->
  exists d kind,
    attempted c = PDict d /\
    NoDup (dict_keys d) /\
    dict_get d "command" = Some (PStr kind) /\
    In kind command_kinds /\
    dict_get d "toy" = option_map PStr (target c).
Proof.
  intros Hb. destruct c as [cmd t|actions time lon loff toy sl|toy
                            |strength rule time toy
                            |pattern acts interval time toy|name time toy| |];
    [discriminate| | | | | | |]; cbn [attempted target].
  - exists (function_payload actions time lon loff toy sl), "Function".
    unfold function_payload.
    destruct lon, loff, toy, sl; cbn [option_map];
      (split; [reflexivity|]; split;
       [repeat constructor; simpl; intuition discriminate|];
       split; [reflexivity|]; split; [simpl; tauto | reflexivity]).
  - exists (stop_payload toy), "Function".
    destruct toy; cbn [option_map];
      (split; [reflexivity|]; split;
       [repeat constructor; simpl; intuition discriminate|];
       split; [reflexivity|]; split; [simpl; tauto | reflexivity]).
  - exists (pattern_raw_payload strength rule time toy), "Pattern".
    destruct toy; cbn [option_map];
      (split; [reflexivity|]; split;
       [repeat constructor; simpl; intuition discriminate|];
       split; [reflexivity|]; split; [simpl; tauto | reflexivity]).
  - exists (pattern_payload pattern acts interval time toy), "Pattern".
    unfold pattern_payload.
    destruct toy; cbn [option_map];
      (split; [reflexivity|]; split;
       [repeat constructor; simpl; intuition discriminate|];
       split; [reflexivity|]; split; [simpl; tauto | reflexivity]).
  - exists (preset_payload name time toy), "Preset".
    destruct toy; cbn [option_map];
      (split; [reflexivity|]; split;
       [repeat constructor; simpl; intuition discriminate|];
       split; [reflexivity|]; split; [simpl; tauto | reflexivity]).
  - exists get_toys_payload, "GetToys".
    split; [reflexivity|]. split;
      [repeat constructor; simpl; intuition discriminate|].
    split; [reflexivity|]. split; [simpl; tauto | reflexivity].
  - exists get_toys_name_payload, "GetToyName".
    split; [reflexivity|]. split;
      [repeat constructor; simpl; intuition discriminate|].
    split; [reflexivity|]. split; [simpl; tauto | reflexivity].
Qed.

Lemma built_payload_well_formed_witness :
  exists d kind,
    attempted (Stop (Some "fc9f37e96593")) = PDict d /\
    NoDup (dict_keys d) /\
    dict_get d "command" = Some (PStr kind) /\
    In kind command_kinds /\
    dict_get d "toy" = Some (PStr "fc9f37e96593").
Proof.
  apply (built_payload_well_formed (Stop (Some "fc9f37e96593"))).
  reflexivity.
Defined.

(** ** Action letters of the enumeration *)

Lemma member_letter_valid (a : Actions) :
  is_valid_letter (first_letter (Actions_value a)) = negb (is_ALL a).
Proof. destruct a; reflexivity. Qed.

(** X4.  For a list of members of the enumeration the encoding is the
    lowercased first letters of the members in their order, repetitions
    kept, with every [ALL] left out. *)
Theorem convert_members (members : list Actions) :
  _convert_actions_to_letters (map Member members)
  = join ","
      (map (fun a => first_letter (Actions_value a))
         (filter (fun a => negb (is_ALL a)) members)).
Proof.
  rewrite convert_nonempty.
  - f_equal. induction members as [|a members IH]; [reflexivity|].
    cbn [map filter entry_text]. rewrite member_letter_valid.
    destruct (negb (is_ALL a)); cbn [map]; now rewrite IH.
  - induction members as [|a members IH]; [reflexivity|].
    cbn [map forallb]. now rewrite Member_nonempty, IH.
Qed.

(** ** Patterns within the limits *)

Lemma firstn_all_le {A : Type} (n : nat) (l : list A) :
  (List.length l <= n)%nat -> firstn n l = l.
Proof.
  revert n. induction l as [|a l IH]; intros n H; [now destruct n|].
  destruct n; simpl in *; [lia|]. f_equal. apply IH. lia.
Qed.

(** X5.  A pattern of at most 50 values, each within 0..20, is sent as
    it is: its values in decimal, joined with semicolons. *)
Theorem pattern_strength_within_limits (pattern : list Z) :
  (List.length pattern <= 50)%nat ->
  Forall (fun v => 0 <= v <= 20) pattern ->
  pattern_strength pattern = join ";" (map str_int pattern).
Proof.
  intros Hlen Hall. unfold pattern_strength.
  rewrite firstn_all_le by exact Hlen.
  assert (Hmap : map (fun num => py_min (py_max 0 num) 20) pattern = pattern).
  { clear Hlen. induction Hall as [|v l Hv _ IH]; [reflexivity|].
    cbn [map]. rewrite IH, py_min_eq, py_max_eq. f_equal. lia. }
  now rewrite Hmap.
Qed.

Lemma pattern_strength_within_limits_witness :
  pattern_strength [0; 7; 20] = "0;7;20".
Proof.
  rewrite (pattern_strength_within_limits [0; 7; 20]).
  - reflexivity.
  - simpl. lia.
  - repeat constructor; lia.
Defined.

(** X6.  Whatever follows the 50th value of a pattern has no effect on
    the strength string. *)
Theorem pattern_strength_ignores_tail (pattern extra : list Z) :
  List.length pattern = 50%nat ->
  pattern_strength (pattern ++ extra) = pattern_strength pattern.
Proof.
  intros Hlen. unfold pattern_strength.
  rewrite firstn_app, Hlen, Nat.sub_diag, firstn_O, app_nil_r.
  reflexivity.
Qed.

Lemma pattern_strength_ignores_tail_witness :
  pattern_strength (repeat 5 50 ++ [99; -3])
  = pattern_strength (repeat 5 50).
Proof.
  apply pattern_strength_ignores_tail. reflexivity.
Defined.

(** ** The gateway, case by case *)

(** Splits a call of [send_command] along its branches, recording the
    test each branch took. *)
Ltac send_command_cases self post cmd t :=
  unfold send_command;
  change (post _) with (post (sent_request self cmd t));
  let e := fresh "e" in
  let response := fresh "response" in
  destruct (post (sent_request self cmd t)) as [e|[response|]] eqn:Hpost;
  [ destruct (is_ConnectionError e) eqn:Hconn;
    [|destruct (is_Timeout e) eqn:Htime;
      [|destruct (is_RequestException e) eqn:Hreq]]
  | destruct (Response_ok response) eqn:Hok; cbn [negb];
    [destruct (status_code response =? 200) eqn:Hstatus; cbn [negb];
     [destruct (Response_json response) as [j|e'] eqn:Hjson;
      [destruct (get_code (_parse_json j)) as [code|e''] eqn:Hcode|]|]|]
  | ];
  cbn [state printed result log set_last_command].

Lemma send_command_state (self : GameModeWrapper) (post : transport)
  (command_data : pyval) (timeout : Z) :
  state (send_command self post command_data timeout)
  = set_last_command self command_data.
Proof.
  send_command_cases self post command_data timeout; reflexivity.
Qed.

Lemma perform_state (self : GameModeWrapper) (post : transport) (c : call) :
  state (perform self post c) = set_last_command self (attempted c).
Proof.
  destruct c; apply send_command_state.
Qed.

Lemma Response_ok_false_status (response : Response) :
  Response_ok response = false -> 400 <= status_code response < 600.
Proof.
  unfold Response_ok. intros H. apply negb_false_iff in H.
  apply andb_prop in H. destruct H as [H1 H2].
  apply Z.leb_le in H1. apply Z.ltb_lt in H2. lia.
Qed.

Lemma Response_ok_true_status (response : Response) :
  Response_ok response = true -> ~ 400 <= status_code response < 600.
Proof.
  unfold Response_ok. intros H [H1 H2].
  apply Z.leb_le in H1. apply Z.ltb_lt in H2. rewrite H1, H2 in H.
  discriminate.
Qed.

Lemma get_code_dict (v code : pyval) :
  get_code v = Return code -> exists d, v = PDict d.
Proof.
  destruct v; try discriminate. intros _. now eexists.
Qed.

(** X7.  [send_command] consults the transport once, with the endpoint
    of the instance, the payload as body, the header X-platform carrying
    the application name and the given timeout: two transports that agree
    on that request give the same run. *)
Theorem send_command_posts_one_request (self : GameModeWrapper)
  (post post' : transport) (command_data : pyval) (timeout : Z) :
  post (sent_request self command_data timeout)
  = post' (sent_request self command_data timeout) ->
  send_command self post command_data timeout
  = send_command self post' command_data timeout.
Proof.
  intros H. unfold send_command.
  change (post _) with (post (sent_request self command_data timeout)).
  change (post' _) with (post' (sent_request self command_data timeout)).
  now rewrite H.
Qed.

Lemma send_command_posts_one_request_witness :
  send_command sample_gateway
    (fun request =>
       if String.eqb (url request) "http://10.0.0.69:20010/command"
       then Responds None else Raises (Timeout "late"))
    (PDict get_toys_payload) 10
  = send_command sample_gateway (fun _ => Responds None)
      (PDict get_toys_payload) 10.
Proof.
  apply send_command_posts_one_request. reflexivity.
Defined.

(** X8.  No sequence of calls changes the application name, the
    endpoint, the secure port or the logging flag of an instance. *)
Theorem session_keeps_configuration (self : GameModeWrapper)
  (calls : list (call * transport)) :
  app_name (session self calls) = app_name self /\
  api_endpoint (session self calls) = api_endpoint self /\
  _ssl_port (session self calls) = _ssl_port self /\
  log (session self calls) = log self.
Proof.
  revert self. induction calls as [|[c post] calls IH]; intros self;
    [repeat split|].
  cbn [session]. rewrite perform_state.
  destruct (IH (set_last_command self (attempted c))) as (H1 & H2 & H3 & H4).
  now rewrite H1, H2, H3, H4.
Qed.

(** X9.  With logging off, a call prints nothing unless it returns
    [None], and a call that returns [None] prints. *)
Theorem quiet_unless_failure (self : GameModeWrapper) (post : transport)
  (command_data : pyval) (timeout : Z) :
  log self = false ->
  (printed (send_command self post command_data timeout) = []
   <-> result (send_command self post command_data timeout) <> Return None).
Proof.
  intros Hlog.
  send_command_cases self post command_data timeout; rewrite ?Hlog;
    cbn [when app negb];
    (split; [intros H; try discriminate H; discriminate
            | intros H; try reflexivity; now elim H]).
Qed.

Lemma quiet_unless_failure_witness :
  printed (send_command sample_gateway
             (answers 200 (Json.jq "{'code':200,'type':'OK'}"))
             (PDict get_toys_payload) 10) = [].
Proof.
  apply (quiet_unless_failure sample_gateway); [reflexivity|].
  vm_compute. discriminate.
Defined.

(** X10.  [send_command] returns [None] exactly when the transport
    fails: on an exception of the requests hierarchy, a missing response or
    a status other than 200. *)
Theorem None_iff_transport_failure (self : GameModeWrapper) (post : transport)
  (command_data : pyval) (timeout : Z) :
  result (send_command self post command_data timeout) = Return None
  <-> transport_failure (post (sent_request self command_data timeout)).
Proof.
  send_command_cases self post command_data timeout;
    (split; [intros H; try discriminate H | intros H; try reflexivity]).
  - now apply connection_failure.
  - now apply timeout_expiry.
  - now apply request_failure.
  - inversion H; subst.
    + congruence.
    + congruence.
    + congruence.
  - inversion H as [| | | |? Hne]; subst. apply Z.eqb_eq in Hstatus.
    contradiction.
  - inversion H as [| | | |? Hne]; subst. apply Z.eqb_eq in Hstatus.
    contradiction.
  - inversion H as [| | | |? Hne]; subst. apply Z.eqb_eq in Hstatus.
    contradiction.
  - apply bad_status. now apply Z.eqb_neq.
  - apply bad_status. apply Response_ok_false_status in Hok. lia.
  - apply missing_response.
Qed.

(** X11.  What [send_command] returns other than [None] is a mapping:
    the normalized body of a response with status 200. *)
Theorem returned_value_is_normalized_body (self : GameModeWrapper)
  (post : transport) (command_data : pyval) (timeout : Z) (v : pyval) :
  result (send_command self post command_data timeout) = Return (Some v) ->
  exists response body d,
    post (sent_request self command_data timeout) = Responds (Some response) /\
    status_code response = 200 /\
    Json.loads (text response) = Some body /\
    _parse_json body = PDict d /\
    v = PDict d.
Proof.
  send_command_cases self post command_data timeout; intros H;
    try discriminate H.
  inversion H; subst. apply Z.eqb_eq in Hstatus.
  destruct (get_code_dict _ _ Hcode) as [d Hd].
  exists response, j, d. repeat split; try assumption.
  unfold Response_json in Hjson.
  destruct (Json.loads (text response)); now inversion Hjson.
Qed.

Lemma returned_value_is_normalized_body_witness :
  exists response body d,
    answers 200 (Json.jq "{'code':200}")
      (sent_request sample_gateway (PDict get_toys_payload) 10)
    = Responds (Some response) /\
    status_code response = 200 /\
    Json.loads (text response) = Some body /\
    _parse_json body = PDict d /\
    PDict [("code", PInt 200)] = PDict d.
Proof.
  apply (returned_value_is_normalized_body sample_gateway
           (answers 200 (Json.jq "{'code':200}")) (PDict get_toys_payload) 10).
  vm_compute. reflexivity.
Defined.



(** X13.  A response whose status lies in 400..599 is falsy and is
    reported as no response, without its status; the status is reported
    for the other statuses that differ from 200. *)
Theorem status_report (self : GameModeWrapper) (post : transport)
  (command_data : pyval) (timeout : Z) (response : Response) :
  post (sent_request self command_data timeout) = Responds (Some response) ->
  status_code response <> 200 ->
  printed (send_command self post command_data timeout)
  = (when (log self) [[Str command_data]]
       ++ [if (400 <=? status_code response) && (status_code response <? 600)
           then no_response_line
           else status_line (status_code response)])%list.
Proof.
  intros Hpost Hne. unfold send_command.
  change (post _) with (post (sent_request self command_data timeout)).
  rewrite Hpost. unfold Response_ok.
  destruct ((400 <=? status_code response) && (status_code response <? 600));
    cbn [negb]; [reflexivity|].
  apply Z.eqb_neq in Hne. rewrite Hne. reflexivity.
Qed.

Lemma status_report_witness :
  printed (send_command sample_gateway (answers 404 "") (PDict get_toys_payload) 10)
  = [no_response_line]
  /\ printed (send_command sample_gateway (answers 301 "")
                (PDict get_toys_payload) 10)
     = [status_line 301].
Proof.
  split.
  - rewrite (status_report sample_gateway (answers 404 "")
               (PDict get_toys_payload) 10 {| status_code := 404; text := "" |});
      [reflexivity | reflexivity | simpl; discriminate].
  - rewrite (status_report sample_gateway (answers 301 "")
               (PDict get_toys_payload) 10 {| status_code := 301; text := "" |});
      [reflexivity | reflexivity | simpl; discriminate].
Defined.

(** X14.  An exception of the transport that does not belong to the
    requests hierarchy is not caught: [send_command] raises it, having
    printed nothing but the payload when logging is on. *)
Theorem foreign_exception_propagates (self : GameModeWrapper)
  (post : transport) (command_data : pyval) (timeout : Z) (e : exn) :
  post (sent_request self command_data timeout) = Raises e ->
  is_RequestException e = false ->
  result (send_command self post command_data timeout) = Raise e /\
  printed (send_command self post command_data timeout)
  = when (log self) [[Str command_data]].
Proof.
  intros Hpost Hreq. unfold send_command.
  change (post _) with (post (sent_request self command_data timeout)).
  rewrite Hpost.
  destruct (is_ConnectionError e) eqn:Hc;
    [apply ConnectionError_is_RequestException in Hc; congruence|].
  destruct (is_Timeout e) eqn:Ht;
    [apply Timeout_is_RequestException in Ht; congruence|].
  rewrite Hreq. split; reflexivity.
Qed.

Lemma foreign_exception_propagates_witness :
  result (send_command sample_gateway
            (fun _ => Raises (OtherException "not serializable"))
            (PDict get_toys_payload) 10)
  = Raise (OtherException "not serializable").
Proof.
  apply (foreign_exception_propagates sample_gateway
           (fun _ => Raises (OtherException "not serializable"))
           (PDict get_toys_payload) 10); reflexivity.
Defined.

(** X15.  A connect timeout, which is both a connection error and a
    timeout, is handled by the first handler: it is reported as a failure
    to establish a connection. *)
Theorem connect_timeout_is_connection_failure (self : GameModeWrapper)
  (post : transport) (command_data : pyval) (timeout : Z) (msg : string) :
  post (sent_request self command_data timeout) = Raises (ConnectTimeout msg) ->
  result (send_command self post command_data timeout) = Return None /\
  printed (send_command self post command_data timeout)
  = (when (log self) [[Str command_data]] ++ [connection_line]
       ++ when (log self) [[Lit msg]])%list.
Proof.
  intros Hpost. unfold send_command.
  change (post _) with (post (sent_request self command_data timeout)).
  rewrite Hpost. split; reflexivity.
Qed.

Lemma connect_timeout_is_connection_failure_witness :
  printed (send_command logging_gateway
             (fun _ => Raises (ConnectTimeout "connect timed out"))
             (PDict get_toys_payload) 10)
  = [[Str (PDict get_toys_payload)]; connection_line;
     [Lit "connect timed out"]].
Proof.
  rewrite (proj2 (connect_timeout_is_connection_failure logging_gateway
                    (fun _ => Raises (ConnectTimeout "connect timed out"))
                    (PDict get_toys_payload) 10 "connect timed out" eq_refl)).
  reflexivity.
Defined.

(** X16.  Sending the last command again, after any call, leaves the
    instance as it is and posts the request of that call: same endpoint,
    same header, same body. *)
Theorem replay_of_last_command (self : GameModeWrapper) (post post' : transport)
  (c : call) (timeout : Z) :
  let after := state (perform self post c) in
  last_command after = Some (attempted c) /\
  state (send_command after post' (attempted c) timeout) = after /\
  sent_request after (attempted c) timeout
  = sent_request self (attempted c) timeout.
Proof.
  cbv zeta. rewrite perform_state. split; [reflexivity|].
  split; [|reflexivity]. now rewrite send_command_state.
Qed.

(** ** Normalization of values without strings *)

(** X17.  Normalization changes nothing in a value that holds no
    string: numbers, booleans, [None] and the mappings and sequences built
    from them come back as they are. *)
Theorem parse_json_string_free :
  forall v, string_free v = true -> _parse_json v = v.
Proof.
  fix IH 1. intros [ |b|z|f|s|l|d] H; try reflexivity.
  - discriminate H.
  - cbn [_parse_json]. f_equal. cbn [string_free] in H.
    induction l as [|x l IHl]; [reflexivity|].
    cbn [forallb] in H. apply andb_prop in H. destruct H as [Hx Hl].
    cbn [map]. rewrite (IH x Hx). f_equal. exact (IHl Hl).
  - rewrite _parse_json_dict. f_equal. cbn [string_free] in H.
    induction d as [|[k x] d IHd]; [reflexivity|].
    apply andb_prop in H. destruct H as [Hx Hd].
    cbn [map fst snd]. rewrite (IH x Hx). f_equal. exact (IHd Hd).
Qed.

Lemma parse_json_string_free_witness :
  _parse_json (PDict [("code", PInt 200); ("levels", PList [PInt 1; PBool true])])
  = PDict [("code", PInt 200); ("levels", PList [PInt 1; PBool true])].
Proof.
  apply parse_json_string_free. reflexivity.
Defined.

(** ** The detail of a request failure *)

Lemma substring_0_length (n : nat) (s : string) :
  (String.length (substring 0 n s) <= n)%nat.
Proof.
  revert s. induction n as [|n IH]; intros [|c s]; simpl; try lia.
  specialize (IH s). lia.
Qed.

Lemma substring_0_prefix (n : nat) (s : string) :
  prefix (substring 0 n s) s = true.
Proof.
  revert s. induction n as [|n IH]; intros [|c s]; simpl; try reflexivity.
  destruct (ascii_dec c c) as [_|Hne]; [apply IH|now elim Hne].
Qed.

Lemma substring_0_all (n : nat) (s : string) :
  (String.length s <= n)%nat -> substring 0 n s = s.
Proof.
  revert s. induction n as [|n IH]; intros [|c s]; simpl; intros H;
    try reflexivity; try lia.
  f_equal. apply IH. lia.
Qed.

(** X18.  With logging off, the report of a request failure that is
    neither a connection error nor a timeout carries at most the first 50
    characters of the error text, the whole text when it is that short,
    followed by the hint to enable logging; the call returns [None]. *)
Theorem request_failure_detail_is_truncated (self : GameModeWrapper)
  (post : transport) (command_data : pyval) (timeout : Z) (e : exn) :
  log self = false ->
  post (sent_request self command_data timeout) = Raises e ->
  is_RequestException e = true ->
  is_ConnectionError e = false ->
  is_Timeout e = false ->
  exists detail,
    printed (send_command self post command_data timeout)
    = [[Lit "Error: An error occurred in the request: ";
        Lit (detail ++ "... Enable logging for more info")]] /\
    (String.length detail <= 50)%nat /\
    prefix detail (exn_str e) = true /\
    ((String.length (exn_str e) <= 50)%nat -> detail = exn_str e) /\
    result (send_command self post command_data timeout) = Return None.
Proof.
  intros Hlog Hpost Hreq Hconn Htime.
  exists (substring 0 50 (exn_str e)).
  split; [|split; [|split; [|split]]].
  - unfold send_command.
    change (post _) with (post (sent_request self command_data timeout)).
    rewrite Hpost, Hconn, Htime, Hreq.
    cbn [printed log set_last_command]. rewrite Hlog. reflexivity.
  - apply substring_0_length.
  - apply substring_0_prefix.
  - apply substring_0_all.
  - unfold send_command.
    change (post _) with (post (sent_request self command_data timeout)).
    now rewrite Hpost, Hconn, Htime, Hreq.
Qed.

Lemma request_failure_detail_is_truncated_witness :
  exists detail,
    printed (send_command sample_gateway
               (fun _ => Raises (RequestException "Invalid URL"))
               (PDict get_toys_payload) 10)
    = [[Lit "Error: An error occurred in the request: ";
        Lit (detail ++ "... Enable logging for more info")]] /\
    (String.length detail <= 50)%nat /\
    prefix detail "Invalid URL" = true /\
    ((String.length "Invalid URL" <= 50)%nat -> detail = "Invalid URL") /\
    result (send_command sample_gateway
              (fun _ => Raises (RequestException "Invalid URL"))
              (PDict get_toys_payload) 10) = Return None.
Proof.
  apply (request_failure_detail_is_truncated sample_gateway
           (fun _ => Raises (RequestException "Invalid URL"))
           (PDict get_toys_payload) 10 (RequestException "Invalid URL"));
    reflexivity.
Defined.

(** ** What a function request and a pattern request carry *)

(** X19.  The action string of [function_request] lists the actions in
    the caller's order, one action:value pair each, the value being the
    clamped one, whatever optional arguments are given. *)
Theorem function_payload_action_string (actions : dict Z) (time : pyval)
  (loop_on_time loop_off_time : option Z) (toy_id : option string)
  (stop_last : option bool) :
  NoDup (dict_keys actions) ->
  dict_get
    (function_payload actions time loop_on_time loop_off_time toy_id stop_last)
    "action"
  = Some (PStr (join ","
                  (map (fun item =>
                          fst item ++ ":"
                            ++ str_int (clamped (fst item) (snd item)))
                     actions))).
Proof.
  intros Hnd. unfold function_payload.
  rewrite (_function_clamp_range_map actions Hnd), map_map.
  destruct loop_on_time, loop_off_time, toy_id, stop_last; reflexivity.
Qed.

Lemma function_payload_action_string_witness :
  dict_get (function_payload sample_actions (PInt 5) None (Some 0) None None)
    "action"
  = Some (PStr "Vibrate:20,Pump:0,Custom:99").
Proof.
  rewrite (function_payload_action_string sample_actions (PInt 5) None (Some 0)
             None None sample_actions_distinct).
  reflexivity.
Defined.

(** X20.  An interval within 100..1000 goes into the rule string as it
    is, after the feature field (empty when the actions hold "All", the
    action letters otherwise). *)
Theorem pattern_rule_interval_within_limits
  (actions : option (list action_entry)) (interval : Z) :
  100 <= interval <= 1000 ->
  let chosen := match actions with None => [Member ALL] | Some l => l end in
  let feature :=
    if ALL_in chosen then "" else _convert_actions_to_letters chosen in
  pattern_rule actions interval
  = "V:1;F:" ++ feature ++ ";S:" ++ str_int interval ++ "#".
Proof.
  intros H. rewrite pattern_rule_interval. cbv zeta.
  replace (Z.min (Z.max interval 100) 1000) with interval by lia.
  reflexivity.
Qed.

Lemma pattern_rule_interval_within_limits_witness :
  pattern_rule (Some [Member VIBRATE; Member PUMP]) 250 = "V:1;F:v,p;S:250#".
Proof.
  rewrite (pattern_rule_interval_within_limits
             (Some [Member VIBRATE; Member PUMP]) 250 ltac:(lia)).
  reflexivity.
Defined.
